(** * Aave V3 stress-test simulator: liquidation cascade

    A shallow embedding of the two entry points of the repository,
    [src/app.py] (the interactive driver, module [App]) and
    [src/aave_simulation.py] (the batch script, module [Batch]), and the
    properties of the liquidation engine.

    Conventions of the embedding.
    - Python floats are modelled by exact rationals [Q]; [==] on floats is
      [Qeq].  Rounding is abstracted away; [float('inf')] is the constructor
      [Inf] of [hf].
    - A float division by zero raises [ZeroDivisionError] in Python; it is
      the error [Raise ZeroDivisionError] of the [result] monad.
    - The [while True] loop of the cascade is driven by fuel; running out of
      fuel is the distinct outcome [OutOfFuel].
    - [self.users] is a list of mutable objects and [liquidatable_users]
      holds references to the same objects: the store is a [list User] and
      the selection a list of indices into it.
    - numpy's global random state is threaded explicitly; the generator
      itself is an interface ([RandomSource]).
    - Console output, the text log and the plots are not modelled. *)

From Stdlib Require Import QArith Qround ZArith Lqa Lia Sorted.
From stdpp Require Import base list strings pretty.

Open Scope Q_scope.

(** ** Errors and the result monad *)

Inductive exn : Set := ZeroDivisionError.

Inductive result (A : Type) : Type :=
| Ok (a : A)
| Raise (e : exn)
| OutOfFuel.

Arguments Ok {A} a.
Arguments Raise {A} e.
Arguments OutOfFuel {A}.

#[export] Instance result_ret : MRet result := fun A a => Ok a.

#[export] Instance result_bind : MBind result := fun A B f m =>
  match m with
  | Ok a => f a
  | Raise e => Raise e
  | OutOfFuel => OutOfFuel
  end.

(** ** Float operations *)

Definition Qltb (a b : Q) : bool :=
  match a ?= b with Lt => true | _ => false end.

(** [a / b] on Python floats. *)
Definition fdiv (a b : Q) : result Q :=
  if Qeq_bool b 0 then Raise ZeroDivisionError else Ok (a / b).

(** [max(a, b)] of Python: the first argument unless the second is
    strictly greater. *)
Definition pymax (a b : Q) : Q := if Qltb a b then b else a.

(** [sum(...)] of Python: left to right, starting from [0]. *)
Definition pysum (l : list Q) : Q := foldl Qplus 0 l.

(** [range(n)] *)
Definition range (n : Z) : list Z := Z.of_nat <$> seq 0 (Z.to_nat n).

(** [list.sort(key=..., reverse=True)] on a list of references (positions
    in the store): descending, and stable (elements with equal keys keep
    their original order). *)
Fixpoint insert_desc (key : nat -> Q) (i : nat) (l : list nat) : list nat :=
  match l with
  | [] => [i]
  | j :: l' => if Qltb (key i) (key j) then j :: insert_desc key i l' else i :: l
  end.

Definition sort_desc (key : nat -> Q) (l : list nat) : list nat :=
  foldr (insert_desc key) [] l.

(** ** Data model (identical in both source files) *)

Record ReserveConfig : Type := mkReserve {
  name : string;
  price : Q;
  lt : Q;
  ltv : Q;
  lb : Q;
  decimals : Z
}.

Definition set_price (r : ReserveConfig) (p : Q) : ReserveConfig :=
  mkReserve (name r) p (lt r) (ltv r) (lb r) (decimals r).

Record User : Type := mkUser {
  uid : Z;
  eth_collateral : Q;
  usdc_debt : Q;
  initial_eth : Q;
  initial_debt : Q;
  is_liquidated : bool;
  bad_debt : Q
}.

(** [User.__init__] *)
Definition new_user (uid : Z) (eth_collateral usdc_debt : Q) : User :=
  mkUser uid eth_collateral usdc_debt eth_collateral usdc_debt false 0.0.

(** The sort key [lambda u: u.usdc_debt] of the object at position [i]
    of the store. *)
Definition debt_at (us : list User) (i : nat) : Q :=
  match us !! i with Some u => usdc_debt u | None => 0 end.

(** The health factor: a float or [float('inf')]. *)
Inductive hf : Type := Inf | Fin (q : Q).

(** [h < x] for a health factor [h] and a float [x]. *)
Definition hf_ltb (h : hf) (x : Q) : bool :=
  match h with
  | Inf => false
  | Fin q => Qltb q x
  end.

(** One entry of [self.history]. *)
Record Snapshot : Type := mkSnapshot {
  stage : string;
  eth_price : Q;
  total_bad_debt : Q;
  liquidatable_users : nat;
  total_collateral_usd : Q
}.

(** ** The random source (numpy.random)

    [seed] is [np.random.seed], [uniform] is [np.random.uniform(low, high)]
    and [exponential] is [np.random.exponential(scale)]; each draw returns
    the sample and the next state of the global generator. *)

Class RandomSource : Type := {
  rng_state : Type;
  seed : Z -> rng_state;
  uniform : Q -> Q -> rng_state -> Q * rng_state;
  exponential : Q -> rng_state -> Q * rng_state
}.

(** What numpy documents of the two distributions: a uniform sample lies
    between its bounds, an exponential sample is positive (the density is
    supported on [x > 0]). *)
Class RandomSourceLaws (R : RandomSource) : Prop := {
  uniform_range : forall lo hi g,
    lo <= hi -> lo <= fst (uniform lo hi g) /\ fst (uniform lo hi g) <= hi;
  exponential_pos : forall scale g,
    0 < scale -> 0 < fst (exponential scale g)
}.

(** A small concrete generator, used to run the simulation on examples:
    the state is a counter, and the samples cycle through eight evenly
    spaced points of the range. *)
Definition cyc (g : Z) : Q := inject_Z (g mod 8) / 8.

#[export] Instance cyclic_source : RandomSource := {|
  rng_state := Z;
  seed := fun s => s;
  uniform := fun lo hi g => (lo + (hi - lo) * cyc g, (g + 1)%Z);
  exponential := fun scale g => (scale * (cyc g + 1 / 8), (g + 1)%Z)
|}.

(** ** The interactive driver, [src/app.py] *)

Module App.

Record SimulationConfig : Type := mkConfig {
  eth_price_drop : Q;
  market_liquidity_depth : Q;
  num_users : Z;
  whale_concentration : Q;
  start_price : Q
}.

(** [User.calculate_hf] (app.py, lines 38-48).  The division is guarded by
    the test on the debt, so it cannot raise. *)
Definition calculate_hf (u : User) (eth_reserve : ReserveConfig) : hf :=
  if Qeq_bool (usdc_debt u) 0 then Inf
  else
    let collateral_usd := eth_collateral u * price eth_reserve in
    let debt_usd := usdc_debt u in
    if Qeq_bool debt_usd 0 then Inf
    else Fin ((collateral_usd * lt eth_reserve) / debt_usd).

(** The object [StressTestSimulation]; [self.logs] is not modelled. *)
Record StressTestSimulation : Type := mkSim {
  config : SimulationConfig;
  eth_reserve : ReserveConfig;
  users : list User;
  history : list Snapshot
}.

(** [StressTestSimulation.__init__] *)
Definition new (config : SimulationConfig) : StressTestSimulation :=
  mkSim config (mkReserve "ETH" (start_price config) 0.825 0.80 0.05 18) [] [].

Section Generation.
Context {R : RandomSource}.

(** [is_whale = i < (num_users * whale_concentration)] *)
Definition is_whale (c : SimulationConfig) (i : Z) : bool :=
  Qltb (inject_Z i) (inject_Z (num_users c) * whale_concentration c).

(** The two draws of one iteration: [(eth_amt, target_hf)]. *)
Definition draw_position (c : SimulationConfig) (i : Z) (g : rng_state)
  : Q * Q * rng_state :=
  if is_whale c i then
    let '(eth_amt, g) := uniform 1000 10000 g in
    let '(target_hf, g) := uniform 1.2 1.8 g in
    (eth_amt, target_hf, g)
  else
    let '(eth_amt, g) := exponential 10 g in
    let '(target_hf, g) := uniform 1.01 2.0 g in
    (eth_amt, target_hf, g).

(** The body of the loop of [generate_users] (app.py, lines 68-81). *)
Definition generate_user (c : SimulationConfig) (r : ReserveConfig)
  (i : Z) (g : rng_state) : result (User * rng_state) :=
  let '(eth_amt, target_hf, g) := draw_position c i g in
  let collateral_usd := eth_amt * price r in
  let max_borrow := collateral_usd * lt r in
  debt_usd ← fdiv max_borrow target_hf;
  mret (new_user i eth_amt debt_usd, g).

Fixpoint generate_loop (c : SimulationConfig) (r : ReserveConfig)
  (idx : list Z) (us : list User) (g : rng_state)
  : result (list User * rng_state) :=
  match idx with
  | [] => mret (us, g)
  | i :: idx =>
      '(u, g) ← generate_user c r i g;
      generate_loop c r idx (us ++ [u]) g
  end.

(** [generate_users] (app.py, lines 64-81): reseeds the global generator,
    then appends [num_users] positions to [self.users]. *)
Definition generate_users (s : StressTestSimulation) (g : rng_state)
  : result (StressTestSimulation * rng_state) :=
  let g := seed 42 in
  '(us, g) ← generate_loop (config s) (eth_reserve s)
                (range (num_users (config s))) (users s) g;
  mret (mkSim (config s) (eth_reserve s) us (history s), g).

End Generation.

(** The test [u.calculate_hf(self.eth_reserve) < 1.0] *)
Definition liquidatable (r : ReserveConfig) (u : User) : bool :=
  hf_ltb (calculate_hf u r) 1.0.

(** [_snapshot_state] (app.py, lines 146-157) *)
Definition _snapshot_state (s : StressTestSimulation) (stage : string)
  : StressTestSimulation :=
  let total_bad_debt := pysum (bad_debt <$> users s) in
  let liquidatable_cnt :=
    length (List.filter (liquidatable (eth_reserve s)) (users s)) in
  let total_collateral_usd :=
    pysum ((fun u => eth_collateral u * price (eth_reserve s)) <$> users s) in
  mkSim (config s) (eth_reserve s) (users s)
    (history s ++ [mkSnapshot stage (price (eth_reserve s)) total_bad_debt
                     liquidatable_cnt total_collateral_usd]).

(** *** The liquidation cascade (app.py, lines 93-142) *)

(** [liquidatable_users = [u for u in self.users if ... < 1.0]]: the
    selected objects, as positions in [self.users]. *)
Definition select (r : ReserveConfig) (us : list User) : list nat :=
  List.filter
    (fun i => match us !! i with Some u => liquidatable r u | None => false end)
    (seq 0 (length us)).

(** The body of [for user in liquidatable_users] (app.py, lines 108-126):
    the mutated position and [actual_seized_eth]. *)
Definition liquidate (r : ReserveConfig) (user : User) : result (User * Q) :=
  let close_factor := 0.5 in
  let debt_to_cover := usdc_debt user * close_factor in
  let bonus_multiplier := 1 + lb r in
  let collateral_to_seize_usd := debt_to_cover * bonus_multiplier in
  collateral_to_seize_eth ← fdiv collateral_to_seize_usd (price r);
  if Qltb (eth_collateral user) collateral_to_seize_eth then
    let actual_seized_eth := eth_collateral user in
    let value_taken := actual_seized_eth * price r in
    paid ← fdiv value_taken bonus_multiplier;
    let remaining_debt := usdc_debt user - paid in
    mret (mkUser (uid user) 0 0 (initial_eth user) (initial_debt user)
            (is_liquidated user) (pymax 0 remaining_debt),
          actual_seized_eth)
  else
    let actual_seized_eth := collateral_to_seize_eth in
    mret (mkUser (uid user) (eth_collateral user - actual_seized_eth)
            (usdc_debt user - debt_to_cover) (initial_eth user)
            (initial_debt user) (is_liquidated user) (bad_debt user),
          actual_seized_eth).

(** The [for] loop over the sorted selection: every selected object is
    mutated in place, and [round_liquidation_vol_eth] accumulates. *)
Fixpoint liquidate_all (r : ReserveConfig) (sel : list nat)
  (us : list User) (vol : Q) : result (list User * Q) :=
  match sel with
  | [] => mret (us, vol)
  | i :: sel =>
      match us !! i with
      | None => liquidate_all r sel us vol
      | Some user =>
          '(user', actual_seized_eth) ← liquidate r user;
          liquidate_all r sel (<[i := user']> us) (vol + actual_seized_eth)
      end
  end.

Definition set_state (s : StressTestSimulation) (r : ReserveConfig)
  (us : list User) : StressTestSimulation :=
  mkSim (config s) r us (history s).

(** One iteration of [while True], from the selection to the snapshot:
    [None] when the selection is empty ([break] before any mutation),
    otherwise the new state and [slippage_pct]. *)
Definition cascade_round (round_num : nat) (s : StressTestSimulation)
  : result (option (StressTestSimulation * Q)) :=
  let r := eth_reserve s in
  let liquidatable_users := select r (users s) in
  match liquidatable_users with
  | [] => mret None
  | _ =>
      let liquidatable_users :=
        sort_desc (debt_at (users s)) liquidatable_users in
      '(us, round_liquidation_vol_eth) ←
        liquidate_all r liquidatable_users (users s) 0;
      let liquidation_value_sold := round_liquidation_vol_eth * price r in
      q ← fdiv liquidation_value_sold (market_liquidity_depth (config s));
      let slippage_pct := q * 0.01 in
      let r := set_price r (price r * (1 - slippage_pct)) in
      let s := set_state s r us in
      let s := _snapshot_state s ("Round " +:+ pretty round_num) in
      mret (Some (s, slippage_pct))
  end.

(** The loop [while True]; [round_num] is the counter before the
    increment at the top of the body. *)
Fixpoint cascade (fuel : nat) (round_num : nat) (s : StressTestSimulation)
  : result StressTestSimulation :=
  match fuel with
  | O => OutOfFuel
  | S fuel =>
      let round_num := S round_num in
      o ← cascade_round round_num s;
      match o with
      | None => mret s
      | Some (s, slippage_pct) =>
          if Qltb slippage_pct 0.0001 then mret s
          else cascade fuel round_num s
      end
  end.

(** Phase 1 of [run] (app.py, lines 88-91). *)
Definition shock (s : StressTestSimulation) : StressTestSimulation :=
  let original_price := price (eth_reserve s) in
  let r := set_price (eth_reserve s)
             (original_price * (1 - eth_price_drop (config s))) in
  _snapshot_state (set_state s r (users s)) "Post-Shock".

Section Run.
Context {R : RandomSource}.

(** [StressTestSimulation.run] (app.py, lines 83-144); the result is the
    object after the run, whose [history] is the returned data frame. *)
Definition run (fuel : nat) (s : StressTestSimulation) (g : rng_state)
  : result (StressTestSimulation * rng_state) :=
  '(s, g) ← generate_users s g;
  let s := shock s in
  s ← cascade fuel 0 s;
  mret (s, g).

End Run.

(** The "Key Metrics" of the page (app.py, lines 197-204), before they are
    formatted: [final_state = df_results.iloc[-1]], which raises on an
    empty frame ([None] here), then the final price, the total bad debt,
    the number of vulnerable users and the risk status.  The price delta
    shown under the first metric is not modelled. *)
Definition key_metrics (history : list Snapshot)
  : option (Q * Q * nat * string) :=
  match last history with
  | None => None
  | Some final_state =>
      Some (eth_price final_state,
            total_bad_debt final_state,
            liquidatable_users final_state,
            if Qltb 0 (total_bad_debt final_state)
            then "CRITICAL" else "STABLE")
  end.

End App.

(** ** The batch script, [src/aave_simulation.py] *)

Module Batch.

(** [SimulationConfig.__init__] takes no argument: the configuration is
    the constant below. *)
Record SimulationConfig : Type := mkConfig {
  eth_price_drop : Q;
  market_liquidity_depth : Q;
  gas_cost_usd : Q;
  num_users : Z;
  whale_concentration : Q
}.

Definition default_config : SimulationConfig :=
  mkConfig 0.30 2e6 50.0 1000 0.01.

(** [User.calculate_hf] (aave_simulation.py, lines 37-55) *)
Definition calculate_hf (u : User) (eth_reserve : ReserveConfig) : hf :=
  if Qeq_bool (usdc_debt u) 0 then Inf
  else
    let collateral_value_eth := eth_collateral u * price eth_reserve in
    let collateral_risk_adjusted := collateral_value_eth * lt eth_reserve in
    let collateral_usd := eth_collateral u * price eth_reserve in
    let debt_usd := usdc_debt u in
    if Qeq_bool debt_usd 0 then Inf
    else Fin ((collateral_usd * lt eth_reserve) / debt_usd).

Record StressTestSimulation : Type := mkSim {
  config : SimulationConfig;
  eth_reserve : ReserveConfig;
  users : list User;
  history : list Snapshot
}.

(** [StressTestSimulation.__init__] *)
Definition new : StressTestSimulation :=
  mkSim default_config (mkReserve "ETH" 2000.0 0.825 0.80 0.05 18) [] [].

Section Generation.
Context {R : RandomSource}.

(** The body of the loop of [generate_users] (lines 84-104). *)
Definition generate_user (c : SimulationConfig) (r : ReserveConfig)
  (i : Z) (g : rng_state) : result (User * rng_state) :=
  let is_whale :=
    Qltb (inject_Z i) (inject_Z (num_users c) * whale_concentration c) in
  let '(eth_amt, target_hf, g) :=
    if is_whale then
      let '(eth_amt, g) := uniform 1000 10000 g in
      let '(target_hf, g) := uniform 1.2 1.8 g in
      (eth_amt, target_hf, g)
    else
      let '(eth_amt, g) := exponential 10 g in
      let '(target_hf, g) := uniform 1.01 2.0 g in
      (eth_amt, target_hf, g) in
  let collateral_usd := eth_amt * price r in
  let max_borrow := collateral_usd * lt r in
  debt_usd ← fdiv max_borrow target_hf;
  mret (new_user i eth_amt debt_usd, g).

Fixpoint generate_loop (c : SimulationConfig) (r : ReserveConfig)
  (idx : list Z) (us : list User) (g : rng_state)
  : result (list User * rng_state) :=
  match idx with
  | [] => mret (us, g)
  | i :: idx =>
      '(u, g) ← generate_user c r i g;
      generate_loop c r idx (us ++ [u]) g
  end.

(** [generate_users] (lines 80-106) *)
Definition generate_users (s : StressTestSimulation) (g : rng_state)
  : result (StressTestSimulation * rng_state) :=
  let g := seed 42 in
  '(us, g) ← generate_loop (config s) (eth_reserve s)
                (range (num_users (config s))) (users s) g;
  mret (mkSim (config s) (eth_reserve s) us (history s), g).

End Generation.

(** [_snapshot_state] (lines 213-225) *)
Definition _snapshot_state (s : StressTestSimulation) (stage : string)
  : StressTestSimulation :=
  let total_bad_debt := pysum (bad_debt <$> users s) in
  let liquidatable_cnt :=
    length (List.filter
              (fun u => hf_ltb (calculate_hf u (eth_reserve s)) 1.0)
              (users s)) in
  let total_collateral_usd :=
    pysum ((fun u => eth_collateral u * price (eth_reserve s)) <$> users s) in
  mkSim (config s) (eth_reserve s) (users s)
    (history s ++ [mkSnapshot stage (price (eth_reserve s)) total_bad_debt
                     liquidatable_cnt total_collateral_usd]).

(** [run_shock_phase] (lines 108-115) *)
Definition run_shock_phase (s : StressTestSimulation) : StressTestSimulation :=
  let original_price := price (eth_reserve s) in
  let r := set_price (eth_reserve s)
             (original_price * (1 - eth_price_drop (config s))) in
  _snapshot_state (mkSim (config s) r (users s) (history s)) "Post-Shock".

(** The body of [for user in liquidatable_users] (lines 138-185). *)
Definition liquidate (r : ReserveConfig) (user : User) : result (User * Q) :=
  let close_factor := 0.5 in
  let debt_to_cover := usdc_debt user * close_factor in
  let bonus_multiplier := 1 + lb r in
  let collateral_to_seize_usd := debt_to_cover * bonus_multiplier in
  collateral_to_seize_eth ← fdiv collateral_to_seize_usd (price r);
  let actual_seized_eth := 0 in
  let bad_debt_accrued := 0 in
  if Qltb (eth_collateral user) collateral_to_seize_eth then
    let actual_seized_eth := eth_collateral user in
    let value_taken := actual_seized_eth * price r in
    paid ← fdiv value_taken bonus_multiplier;
    let remaining_debt := usdc_debt user - paid in
    mret (mkUser (uid user) 0 0 (initial_eth user) (initial_debt user)
            (is_liquidated user) (pymax 0 remaining_debt),
          actual_seized_eth)
  else
    let actual_seized_eth := collateral_to_seize_eth in
    mret (mkUser (uid user) (eth_collateral user - actual_seized_eth)
            (usdc_debt user - debt_to_cover) (initial_eth user)
            (initial_debt user) (is_liquidated user) (bad_debt user),
          actual_seized_eth).

Fixpoint liquidate_all (r : ReserveConfig) (sel : list nat)
  (us : list User) (vol : Q) : result (list User * Q) :=
  match sel with
  | [] => mret (us, vol)
  | i :: sel =>
      match us !! i with
      | None => liquidate_all r sel us vol
      | Some user =>
          '(user', actual_seized_eth) ← liquidate r user;
          liquidate_all r sel (<[i := user']> us) (vol + actual_seized_eth)
      end
  end.

(** [run_liquidation_cascade] (lines 117-211): the loop [while True]. *)
Fixpoint run_liquidation_cascade (fuel : nat) (round_num : nat)
  (s : StressTestSimulation) : result StressTestSimulation :=
  match fuel with
  | O => OutOfFuel
  | S fuel =>
      let round_num := S round_num in
      let r := eth_reserve s in
      let liquidatable_users :=
        List.filter
          (fun i => match users s !! i with
                    | Some u => hf_ltb (calculate_hf u r) 1.0
                    | None => false
                    end)
          (seq 0 (length (users s))) in
      match liquidatable_users with
      | [] => mret s
      | _ =>
          let liquidatable_users :=
            sort_desc (debt_at (users s)) liquidatable_users in
          '(us, round_liquidation_vol_eth) ←
            liquidate_all r liquidatable_users (users s) 0;
          let liquidation_value_sold := round_liquidation_vol_eth * price r in
          q ← fdiv liquidation_value_sold (market_liquidity_depth (config s));
          let slippage_pct := q * 0.01 in
          let prev_price := price r in
          let r := set_price r (price r * (1 - slippage_pct)) in
          let s := _snapshot_state (mkSim (config s) r us (history s))
                     ("Round " +:+ pretty round_num) in
          if Qltb slippage_pct 0.0001 then mret s
          else run_liquidation_cascade fuel round_num s
      end
  end.

(** [User.get_state] (lines 57-68): the dictionary it returns, as a
    record of its six keys. *)
Record UserState : Type := mkUserState {
  st_uid : Z;
  st_hf : hf;
  st_collateral_eth : Q;
  st_collateral_usd : Q;
  st_debt_usd : Q;
  st_bad_debt : Q
}.

Definition get_state (u : User) (eth_reserve : ReserveConfig) : UserState :=
  let hf := calculate_hf u eth_reserve in
  let collateral_usd := eth_collateral u * price eth_reserve in
  let debt_usd := usdc_debt u in
  mkUserState (uid u) hf (eth_collateral u) collateral_usd debt_usd
    (bad_debt u).

(** [run_liquidation_cascade] again, this time with the counter
    [total_liquidated_eth] that the script prints when the loop is over
    (lines 121, 204 and 211): the state and the counter. *)
Fixpoint run_liquidation_cascade_total (fuel : nat) (round_num : nat)
  (total_liquidated_eth : Q) (s : StressTestSimulation)
  : result (StressTestSimulation * Q) :=
  match fuel with
  | O => OutOfFuel
  | S fuel =>
      let round_num := S round_num in
      let r := eth_reserve s in
      let liquidatable_users :=
        List.filter
          (fun i => match users s !! i with
                    | Some u => hf_ltb (calculate_hf u r) 1.0
                    | None => false
                    end)
          (seq 0 (length (users s))) in
      match liquidatable_users with
      | [] => mret (s, total_liquidated_eth)
      | _ =>
          let liquidatable_users :=
            sort_desc (debt_at (users s)) liquidatable_users in
          '(us, round_liquidation_vol_eth) ←
            liquidate_all r liquidatable_users (users s) 0;
          let liquidation_value_sold := round_liquidation_vol_eth * price r in
          q ← fdiv liquidation_value_sold (market_liquidity_depth (config s));
          let slippage_pct := q * 0.01 in
          let prev_price := price r in
          let r := set_price r (price r * (1 - slippage_pct)) in
          let total_liquidated_eth :=
            total_liquidated_eth + round_liquidation_vol_eth in
          let s := _snapshot_state (mkSim (config s) r us (history s))
                     ("Round " +:+ pretty round_num) in
          if Qltb slippage_pct 0.0001 then mret (s, total_liquidated_eth)
          else run_liquidation_cascade_total fuel round_num
                 total_liquidated_eth s
      end
  end.

(** The "Final Results Summary" of [run_evaluation] (lines 256-261),
    before it is formatted: [final_state = self.history[-1]], which raises
    on an empty history ([None] here), then the final price, the total bad
    debt, the collateral remaining and the risk status.  The data frame,
    the plots and the saved image are not modelled. *)
Definition run_evaluation (s : StressTestSimulation)
  : option (Q * Q * Q * string) :=
  match last (history s) with
  | None => None
  | Some final_state =>
      Some (eth_price final_state,
            total_bad_debt final_state,
            total_collateral_usd final_state,
            if Qltb 0 (total_bad_debt final_state)
            then "CRITICAL" else "STABLE")
  end.

Section Main.
Context {R : RandomSource}.

(** The script's [__main__] block, up to the evaluation phase (which
    only prints and plots [self.history]). *)
Definition main (fuel : nat) (g : rng_state)
  : result (StressTestSimulation * rng_state) :=
  '(s, g) ← generate_users new g;
  let s := run_shock_phase s in
  s ← run_liquidation_cascade fuel 0 s;
  mret (s, g).

End Main.

End Batch.

(** ** Relating the two entry points *)

#[export] Instance result_fmap : FMap result := fun A B f m =>
  match m with
  | Ok a => Ok (f a)
  | Raise e => Raise e
  | OutOfFuel => OutOfFuel
  end.

(** The object of the batch script, read as an object of the interactive
    driver: the start price is the $2000 of the batch script's reserve. *)
Definition as_app (b : Batch.StressTestSimulation) : App.StressTestSimulation :=
  App.mkSim
    (App.mkConfig (Batch.eth_price_drop (Batch.config b))
       (Batch.market_liquidity_depth (Batch.config b))
       (Batch.num_users (Batch.config b))
       (Batch.whale_concentration (Batch.config b)) 2000.0)
    (Batch.eth_reserve b) (Batch.users b) (Batch.history b).

(** ** Example configurations *)

(** One whale, the price halved, and a market one dollar deep. *)
Definition thin_market : App.SimulationConfig :=
  App.mkConfig 0.5 1 1 1 2000.

(** The reserve of a run after a shock from $2000 to $1000, and a retail
    position generated at $2000 with target health factor 1.1. *)
Definition reserve_1000 : ReserveConfig :=
  mkReserve "ETH" 1000 0.825 0.80 0.05 18.

Definition retail_1500 : User := new_user 0 1 1500.

(** The same reserve after a shock to $500: the position is under water. *)
Definition reserve_500 : ReserveConfig :=
  mkReserve "ETH" 500 0.825 0.80 0.05 18.

(** A state of the interactive driver with that single position, in a
    market $2M deep, and the state the cascade leaves. *)
Definition small_state : App.StressTestSimulation :=
  App.mkSim (App.mkConfig 0.5 2e6 1 0 2000) reserve_1000 [retail_1500] [].

Definition small_state_after : App.StressTestSimulation :=
  match App.cascade 1 0 small_state with
  | Ok s => s
  | _ => small_state
  end.

(** The only round of the cascade from [small_state]: the state after it
    and its slippage fraction. *)
Definition small_round : App.StressTestSimulation * Q :=
  match App.cascade_round 1 small_state with
  | Ok (Some x) => x
  | _ => (small_state, 0)
  end.

(** Twenty users, two of them whales, with the parameters of the batch
    script. *)
Definition calm_market : App.SimulationConfig :=
  App.mkConfig 0.30 2e6 20 0.1 2000.

(** The same without a price drop. *)
Definition no_shock : App.SimulationConfig :=
  App.mkConfig 0 2e6 20 0.1 2000.

(** A configuration with a negative liquidity depth. *)
Definition negative_depth : App.SimulationConfig :=
  App.mkConfig 0.30 (-2e6) 2 0.5 2000.

(** A configuration with a liquidity depth of zero. *)
Definition zero_depth : App.SimulationConfig :=
  App.mkConfig 0.30 0 2 0.5 2000.

(** Three users, half of them whales. *)
Definition three_users : App.SimulationConfig :=
  App.mkConfig 0.30 2e6 3 0.5 2000.

(** The configuration of the batch script, for the interactive driver. *)
Definition batch_config : App.SimulationConfig :=
  App.mkConfig 0.30 2e6 1000 0.01 2000.0.

(** The value of a computation that returned, and a default otherwise. *)
Definition result_get {A : Type} (d : A) (r : result A) : A :=
  match r with
  | Ok a => a
  | _ => d
  end.

(** A finished run of [three_users] with the cyclic source: the final
    object and the final state of the generator. *)
Definition three_run : App.StressTestSimulation * Z :=
  result_get (App.new three_users, 0%Z)
    (App.run 5 (App.new three_users) 0%Z).

(** A configuration without users, and one with a price drop of 100%. *)
Definition nobody : App.SimulationConfig :=
  App.mkConfig 0.30 2e6 0 0.01 2000.

Definition total_crash : App.SimulationConfig :=
  App.mkConfig 1 2e6 3 0.5 2000.

(** [small_state] in a market without depth. *)
Definition small_state_no_depth : App.StressTestSimulation :=
  App.mkSim (App.mkConfig 0.5 0 1 0 2000) reserve_1000 [retail_1500] [].

(** An object of the batch script that holds the single position
    [retail_1500] before the shock, and the same object after the shock
    and the cascade, with the counter of liquidated collateral. *)
Definition small_batch : Batch.StressTestSimulation :=
  Batch.mkSim Batch.default_config
    (mkReserve "ETH" 2000.0 0.825 0.80 0.05 18) [retail_1500] [].

Definition small_batch_after : Batch.StressTestSimulation * Q :=
  result_get (small_batch, 0)
    (Batch.run_liquidation_cascade_total 3 0 0
       (Batch.run_shock_phase small_batch)).

(** ** Generated positions *)

(** [drawn c r i u]: [u] is the position that iteration [i] of
    [generate_users] builds from some state of the generator. *)
Definition drawn {R : RandomSource} (c : App.SimulationConfig)
  (r : ReserveConfig) (i : Z) (u : User) : Prop :=
  exists g, let '(eth_amt, target_hf, _) := App.draw_position c i g in
            u = new_user i eth_amt (eth_amt * price r * lt r / target_hf).

(** ** Invariants of a position *)

(** Amounts are non-negative, and bad debt is only carried by a position
    without debt. *)
Definition position_ok (u : User) : Prop :=
  0 <= eth_collateral u /\ 0 <= usdc_debt u /\ 0 <= bad_debt u /\
  (usdc_debt u == 0 \/ bad_debt u == 0).

(** [shrinks u u']: from [u] to [u'] collateral and debt did not grow and
    bad debt did not fall; bad debt is either what it was, or it was zero
    and the position is now wiped out. *)
Definition shrinks (u u' : User) : Prop :=
  eth_collateral u' <= eth_collateral u /\
  usdc_debt u' <= usdc_debt u /\
  bad_debt u <= bad_debt u' /\
  (bad_debt u' == bad_debt u \/
   (bad_debt u == 0 /\ eth_collateral u' == 0 /\ usdc_debt u' == 0)).

(** [same_identity u u']: what identifies a position and what records its
    origin is the same in [u] and [u']. *)
Definition same_identity (u u' : User) : Prop :=
  uid u' = uid u /\ initial_eth u' = initial_eth u /\
  initial_debt u' = initial_debt u /\ is_liquidated u' = is_liquidated u.

(** The label of round [n]. *)
Definition round_label (n : nat) : string := "Round " +:+ pretty n.

(** * Properties *)

(** ** Float comparisons and division *)

Lemma Qltb_lt (a b : Q) : Qltb a b = true <-> a < b.
Proof.
  unfold Qltb. rewrite Qlt_alt. destruct (a ?= b); split; congruence.
Qed.

Lemma Qltb_ge (a b : Q) : Qltb a b = false <-> b <= a.
Proof.
  rewrite <- not_true_iff_false, Qltb_lt. split; intros H.
  - apply Qnot_lt_le, H.
  - apply Qle_not_lt, H.
Qed.

Lemma Qeq_bool_ne (a b : Q) : Qeq_bool a b = false <-> ~ a == b.
Proof.
  rewrite <- not_true_iff_false, Qeq_bool_iff. reflexivity.
Qed.

Lemma fdiv_ok (a b : Q) : ~ b == 0 -> fdiv a b = Ok (a / b).
Proof.
  intros H. unfold fdiv. apply Qeq_bool_ne in H. rewrite H. reflexivity.
Qed.

Lemma fdiv_inv (a b q : Q) : fdiv a b = Ok q -> ~ b == 0 /\ q = a / b.
Proof.
  unfold fdiv. destruct (Qeq_bool b 0) eqn:E; [discriminate|].
  intros [= <-]. split; [apply Qeq_bool_ne, E | reflexivity].
Qed.

Lemma fdiv_zero (a b : Q) : b == 0 -> fdiv a b = Raise ZeroDivisionError.
Proof.
  intros H. unfold fdiv. apply Qeq_bool_iff in H. rewrite H. reflexivity.
Qed.

(** ** The cyclic source *)

(** The cyclic source obeys the laws of a random source. *)
Lemma cyc_range (g : Z) : 0 <= cyc g /\ cyc g <= 1.
Proof.
  unfold cyc. pose proof (Z.mod_pos_bound g 8 eq_refl) as [H0 H8].
  rewrite Zle_Qle in H0. rewrite Zlt_Qlt in H8.
  change (inject_Z 0) with 0 in H0. change (inject_Z 8) with 8 in H8.
  split.
  - apply Qle_shift_div_l; [reflexivity | lra].
  - apply Qle_shift_div_r; [reflexivity | lra].
Qed.

#[export] Instance cyclic_laws : RandomSourceLaws cyclic_source.
Proof.
  split.
  - intros lo hi g H. cbn. pose proof (cyc_range g). nra.
  - intros scale g H. cbn [exponential cyclic_source fst].
    pose proof (cyc_range g) as [H0 _].
    apply Qmult_lt_0_compat; [exact H|].
    assert (0 < 1 / 8) by reflexivity. lra.
Qed.

(** ** The health factor *)

Lemma calculate_hf_inf (u : User) (r : ReserveConfig) :
  usdc_debt u == 0 -> App.calculate_hf u r = Inf.
Proof.
  intros H. unfold App.calculate_hf. apply Qeq_bool_iff in H.
  rewrite H. reflexivity.
Qed.

Lemma calculate_hf_fin (u : User) (r : ReserveConfig) :
  ~ usdc_debt u == 0 ->
  App.calculate_hf u r =
  Fin (eth_collateral u * price r * lt r / usdc_debt u).
Proof.
  intros H. unfold App.calculate_hf. apply Qeq_bool_ne in H.
  rewrite H. reflexivity.
Qed.

Lemma calculate_hf_fin_inv (u : User) (r : ReserveConfig) (h : Q) :
  App.calculate_hf u r = Fin h ->
  ~ usdc_debt u == 0 /\ h = eth_collateral u * price r * lt r / usdc_debt u.
Proof.
  unfold App.calculate_hf.
  destruct (Qeq_bool (usdc_debt u) 0) eqn:E; [discriminate|].
  intros [= <-]. split; [apply Qeq_bool_ne, E | reflexivity].
Qed.

(** ** One liquidation *)

(** The two branches of [liquidate], by the test of line 116. *)
Lemma liquidate_partial (r : ReserveConfig) (u : User) :
  ~ price r == 0 ->
  usdc_debt u * 0.5 * (1 + lb r) / price r <= eth_collateral u ->
  App.liquidate r u =
  Ok (mkUser (uid u)
        (eth_collateral u - usdc_debt u * 0.5 * (1 + lb r) / price r)
        (usdc_debt u - usdc_debt u * 0.5) (initial_eth u) (initial_debt u)
        (is_liquidated u) (bad_debt u),
      usdc_debt u * 0.5 * (1 + lb r) / price r).
Proof.
  intros Hp Hle. unfold App.liquidate. rewrite (fdiv_ok _ _ Hp). cbn.
  apply Qltb_ge in Hle. rewrite Hle. reflexivity.
Qed.

Lemma liquidate_wipe_out (r : ReserveConfig) (u : User) :
  ~ price r == 0 -> ~ 1 + lb r == 0 ->
  eth_collateral u < usdc_debt u * 0.5 * (1 + lb r) / price r ->
  App.liquidate r u =
  Ok (mkUser (uid u) 0 0 (initial_eth u) (initial_debt u) (is_liquidated u)
        (pymax 0 (usdc_debt u - eth_collateral u * price r / (1 + lb r))),
      eth_collateral u).
Proof.
  intros Hp Hb Hlt. unfold App.liquidate. rewrite (fdiv_ok _ _ Hp). cbn.
  apply Qltb_lt in Hlt. rewrite Hlt. rewrite (fdiv_ok _ _ Hb). reflexivity.
Qed.

Lemma liquidate_price (r : ReserveConfig) (u u' : User) (x : Q) :
  App.liquidate r u = Ok (u', x) -> ~ price r == 0.
Proof.
  unfold App.liquidate. destruct (fdiv _ (price r)) eqn:E; try discriminate.
  intros _. apply fdiv_inv in E. tauto.
Qed.

(** At a price of exactly zero the liquidation raises. *)
Lemma liquidate_zero_price (r : ReserveConfig) (u : User) :
  price r == 0 -> App.liquidate r u = Raise ZeroDivisionError.
Proof.
  intros H. unfold App.liquidate. rewrite (fdiv_zero _ _ H). reflexivity.
Qed.

(** C2, as stated, fails: a position with health factor 0.55 is partially
    liquidated and ends with health factor 0.23375. *)
Lemma partial_liquidation_can_lower_hf :
  exists u' seized h h',
    App.liquidate reserve_1000 retail_1500 = Ok (u', seized) /\
    App.liquidatable reserve_1000 retail_1500 = true /\
    usdc_debt retail_1500 * 0.5 * (1 + lb reserve_1000) / price reserve_1000
      <= eth_collateral retail_1500 /\
    App.calculate_hf retail_1500 reserve_1000 = Fin h /\
    App.calculate_hf u' reserve_1000 = Fin h' /\
    h == 0.55 /\ h' == 0.23375 /\ h' < h.
Proof.
  do 4 eexists. split; [vm_compute; reflexivity|].
  repeat split; try (vm_compute; reflexivity); vm_compute; congruence.
Qed.

(** C2 (amended).  After a partial liquidation the health factor at the
    unchanged price is [2 * h - LT * (1 + LB)], where [h] is the health
    factor before: it is strictly greater than [h] exactly when
    [h > LT * (1 + LB)] (0.86625 with the reserve of the code). *)
Theorem partial_liquidation_hf (r : ReserveConfig) (u u' : User) (seized h : Q) :
  App.liquidate r u = Ok (u', seized) ->
  App.calculate_hf u r = Fin h ->
  usdc_debt u * 0.5 * (1 + lb r) / price r <= eth_collateral u ->
  exists h',
    App.calculate_hf u' r = Fin h' /\
    h' == 2 * h - lt r * (1 + lb r) /\
    (h < h' <-> lt r * (1 + lb r) < h).
Proof.
  intros Hl Hh Hle.
  pose proof (liquidate_price _ _ _ _ Hl) as Hp.
  rewrite (liquidate_partial _ _ Hp Hle) in Hl. injection Hl as <- <-.
  apply calculate_hf_fin_inv in Hh as [Hd ->].
  eexists. split.
  - apply calculate_hf_fin. cbn. intros H. apply Hd. lra.
  - cbn.
    assert (E : (eth_collateral u - usdc_debt u * 0.5 * (1 + lb r) / price r)
                * price r * lt r / (usdc_debt u - usdc_debt u * 0.5)
                == 2 * (eth_collateral u * price r * lt r / usdc_debt u)
                   - lt r * (1 + lb r)).
    { field. repeat split; try assumption; intros H; apply Hd; lra. }
    split; [exact E|]. rewrite E. split; intros H; lra.
Qed.

(** The theorem at the position of the counterexample: 0.55 becomes
    [2 * 0.55 - 0.86625]. *)
Lemma partial_liquidation_hf_witness :
  exists h',
    App.calculate_hf
      (mkUser 0 (1 - 1500 * 0.5 * (1 + 0.05) / 1000) (1500 - 1500 * 0.5)
         1 1500 false 0.0) reserve_1000 = Fin h' /\
    h' == 2 * (1 * 1000 * 0.825 / 1500) - lt reserve_1000 * (1 + lb reserve_1000) /\
    (1 * 1000 * 0.825 / 1500 < h' <->
     lt reserve_1000 * (1 + lb reserve_1000) < 1 * 1000 * 0.825 / 1500).
Proof.
  apply (partial_liquidation_hf reserve_1000 retail_1500 _
           (1500 * 0.5 * (1 + 0.05) / 1000) (1 * 1000 * 0.825 / 1500)).
  - reflexivity.
  - reflexivity.
  - vm_compute. congruence.
Defined.

(** ** One round of the cascade *)

Lemma cascade_round_inv (n : nat) (s s' : App.StressTestSimulation) (q : Q) :
  App.cascade_round n s = Ok (Some (s', q)) ->
  let r := App.eth_reserve s in
  exists us vol,
    App.select r (App.users s) <> [] /\
    App.liquidate_all r
      (sort_desc (debt_at (App.users s)) (App.select r (App.users s)))
      (App.users s) 0 = Ok (us, vol) /\
    ~ App.market_liquidity_depth (App.config s) == 0 /\
    q = vol * price r / App.market_liquidity_depth (App.config s) * 0.01 /\
    s' = App._snapshot_state
           (App.set_state s (set_price r (price r * (1 - q))) us)
           ("Round " +:+ pretty n).
Proof.
  intros H r. unfold App.cascade_round in H. fold r in H.
  destruct (App.select r (App.users s)) as [|i sel] eqn:Esel; [discriminate|].
  destruct (App.liquidate_all r _ (App.users s) 0) as [[us vol]| |] eqn:El;
    try discriminate.
  cbn in H.
  destruct (fdiv _ (App.market_liquidity_depth (App.config s))) as [x| |] eqn:Ed;
    try discriminate.
  apply fdiv_inv in Ed as [Hd ->]. cbn in H. injection H as <- <-.
  exists us, vol. repeat split; auto.
Qed.

Lemma cascade_round_none (n : nat) (s : App.StressTestSimulation) :
  App.cascade_round n s = Ok None <->
  App.select (App.eth_reserve s) (App.users s) = [].
Proof.
  unfold App.cascade_round.
  destruct (App.select _ _) as [|i sel] eqn:Esel.
  - split; reflexivity.
  - split; [|discriminate].
    destruct (App.liquidate_all _ _ _ _) as [[us vol]| |]; try discriminate.
    cbn. destruct (fdiv _ _); discriminate.
Qed.

(** What a round leaves in the state, field by field. *)
Lemma cascade_round_fields (n : nat) (s s' : App.StressTestSimulation) (q : Q) :
  App.cascade_round n s = Ok (Some (s', q)) ->
  App.config s' = App.config s /\
  lt (App.eth_reserve s') = lt (App.eth_reserve s) /\
  lb (App.eth_reserve s') = lb (App.eth_reserve s) /\
  price (App.eth_reserve s') = price (App.eth_reserve s) * (1 - q) /\
  exists h, App.history s' = App.history s ++ [h] /\
            stage h = "Round " +:+ pretty n /\
            eth_price h = price (App.eth_reserve s').
Proof.
  intros H. apply cascade_round_inv in H as (us & vol & _ & _ & _ & _ & ->).
  cbn. repeat split; eauto.
Qed.

(** C1, as stated, fails: with one whale, the price halved and a market
    one dollar deep, the first round sells about $2M of collateral, the
    slippage fraction is far above 1 and the price recorded for round 1
    is negative. *)
Lemma price_negative_in_thin_market :
  exists s g h,
    App.run 3 (App.new thin_market) 0%Z = Ok (s, g) /\
    App.history s !! 1%nat = Some h /\
    stage h = "Round 1" /\
    eth_price h < 0.
Proof.
  do 3 eexists. split; [vm_compute; reflexivity|].
  split; [reflexivity|]. split; reflexivity.
Qed.

(** C1 (amended).  The code has no floor and no abort on the price: a
    round that starts at a positive price ends at
    [price * (1 - slippage_pct)], which is strictly positive exactly when
    the slippage fraction of the round is below 1. *)
Theorem market_impact_price (n : nat) (s s' : App.StressTestSimulation) (q : Q) :
  App.cascade_round n s = Ok (Some (s', q)) ->
  0 < price (App.eth_reserve s) ->
  price (App.eth_reserve s') = price (App.eth_reserve s) * (1 - q) /\
  (0 < price (App.eth_reserve s') <-> q < 1).
Proof.
  intros H Hp. apply cascade_round_fields in H as (_ & _ & _ & E & _).
  split; [exact E|]. rewrite E. split; intros H; nra.
Qed.

(** The theorem at the only round of [small_state], whose slippage
    fraction is far below 1. *)
Lemma market_impact_price_witness :
  price (App.eth_reserve (fst small_round)) =
    price (App.eth_reserve small_state) * (1 - snd small_round) /\
  (0 < price (App.eth_reserve (fst small_round)) <-> snd small_round < 1).
Proof.
  apply (market_impact_price 1 small_state).
  - vm_compute. reflexivity.
  - reflexivity.
Defined.

(** ** Selection and ordering *)

Lemma elem_of_list_filter {A : Type} (f : A -> bool) (l : list A) (x : A) :
  x ∈ List.filter f l <-> x ∈ l /\ f x = true.
Proof.
  rewrite !list_elem_of_In. apply filter_In.
Qed.

Lemma NoDup_list_filter {A : Type} (f : A -> bool) (l : list A) :
  NoDup l -> NoDup (List.filter f l).
Proof.
  induction 1 as [|x l Hx Hl IH]; cbn; [constructor|].
  destruct (f x); [|exact IH].
  constructor; [|exact IH].
  rewrite elem_of_list_filter. tauto.
Qed.

Lemma insert_desc_perm (key : nat -> Q) (i : nat) (l : list nat) :
  insert_desc key i l ≡ₚ i :: l.
Proof.
  induction l as [|j l IH]; cbn; [reflexivity|].
  destruct (Qltb (key i) (key j)); [|reflexivity].
  rewrite IH. apply Permutation_swap.
Qed.

Lemma sort_desc_perm (key : nat -> Q) (l : list nat) :
  sort_desc key l ≡ₚ l.
Proof.
  induction l as [|i l IH]; cbn; [reflexivity|].
  rewrite insert_desc_perm. fold (sort_desc key l). rewrite IH. reflexivity.
Qed.

(** The sorted selection is in descending order of the key. *)
Lemma insert_desc_hd (key : nat -> Q) (i j : nat) (l : list nat) :
  key i <= key j ->
  HdRel (fun a b => key b <= key a) j l ->
  HdRel (fun a b => key b <= key a) j (insert_desc key i l).
Proof.
  intros Hij Hl. destruct l as [|k l]; cbn; [constructor; exact Hij|].
  destruct (Qltb (key i) (key k)).
  - inversion Hl; subst. constructor. assumption.
  - constructor. exact Hij.
Qed.

Lemma insert_desc_sorted (key : nat -> Q) (i : nat) (l : list nat) :
  Sorted (fun a b => key b <= key a) l ->
  Sorted (fun a b => key b <= key a) (insert_desc key i l).
Proof.
  induction 1 as [|j l Hl IH Hj]; cbn; [repeat constructor|].
  destruct (Qltb (key i) (key j)) eqn:E.
  - apply Qltb_lt in E. constructor; [exact IH|].
    apply insert_desc_hd; [lra | exact Hj].
  - apply Qltb_ge in E. constructor; [constructor; assumption|].
    constructor. exact E.
Qed.

Lemma sort_desc_sorted (key : nat -> Q) (l : list nat) :
  Sorted (fun a b => key b <= key a) (sort_desc key l).
Proof.
  induction l as [|i l IH]; cbn; [constructor|].
  apply insert_desc_sorted, IH.
Qed.

Lemma elem_of_select (r : ReserveConfig) (us : list User) (i : nat) :
  i ∈ App.select r us <->
  exists u, us !! i = Some u /\ App.liquidatable r u = true.
Proof.
  unfold App.select. rewrite elem_of_list_filter, elem_of_seq. split.
  - intros [_ H]. destruct (us !! i) as [u|]; [eauto | discriminate].
  - intros (u & Hu & Hl). rewrite Hu. split; [|exact Hl].
    apply lookup_lt_Some in Hu. lia.
Qed.

Lemma NoDup_select (r : ReserveConfig) (us : list User) :
  NoDup (App.select r us).
Proof.
  apply NoDup_list_filter, NoDup_seq.
Qed.

(** A position without debt is never selected. *)
Lemma no_debt_not_liquidatable (r : ReserveConfig) (u : User) :
  usdc_debt u == 0 -> App.liquidatable r u = false.
Proof.
  intros H. unfold App.liquidatable. rewrite (calculate_hf_inf _ _ H).
  reflexivity.
Qed.

(** ** The loop over the selection *)

Lemma liquidate_all_length (r : ReserveConfig) (sel : list nat) :
  forall us vol us' vol',
    App.liquidate_all r sel us vol = Ok (us', vol') -> length us' = length us.
Proof.
  induction sel as [|i sel IH]; cbn; intros us vol us' vol' H.
  - injection H as <- _. reflexivity.
  - destruct (us !! i) as [u|]; [|eauto].
    destruct (App.liquidate r u) as [[u1 x]| |]; try discriminate.
    cbn in H. apply IH in H. rewrite H. apply length_insert.
Qed.

(** Every selected object is mutated by exactly one call of [liquidate];
    the others are not touched. *)
Lemma liquidate_all_lookup (r : ReserveConfig) (sel : list nat) :
  NoDup sel ->
  forall us vol us' vol',
    App.liquidate_all r sel us vol = Ok (us', vol') ->
    forall i u, us !! i = Some u ->
      ((i ∉ sel) /\ us' !! i = Some u) \/
      (i ∈ sel /\ exists u' x,
          App.liquidate r u = Ok (u', x) /\ us' !! i = Some u').
Proof.
  induction 1 as [|j sel Hj Hnd IH]; cbn; intros us vol us' vol' H i u Hu.
  - injection H as <- _. left. split; [apply not_elem_of_nil | exact Hu].
  - destruct (us !! j) as [uj|] eqn:Ej.
    + destruct (App.liquidate r uj) as [[uj' x]| |] eqn:El; try discriminate.
      cbn in H. destruct (decide (i = j)) as [->|Hij].
      * right. split; [apply list_elem_of_here|].
        assert (Hin : <[j:=uj']> us !! j = Some uj').
        { apply list_lookup_insert_eq. eapply lookup_lt_Some, Ej. }
        destruct (IH _ _ _ _ H j uj' Hin) as [[_ Hk]|[Hk _]]; [|tauto].
        rewrite Ej in Hu. injection Hu as <-. eauto.
      * assert (Hin : <[j:=uj']> us !! i = Some u).
        { rewrite list_lookup_insert_ne; auto. }
        destruct (IH _ _ _ _ H i u Hin) as [[Hk Hl]|[Hk Hl]].
        -- left. split; [|exact Hl]. rewrite not_elem_of_cons. tauto.
        -- right. split; [|exact Hl]. apply list_elem_of_further, Hk.
    + assert (Hij : i <> j) by congruence.
      destruct (IH _ _ _ _ H i u Hu) as [[Hk Hl]|[Hk Hl]].
      * left. split; [|exact Hl]. rewrite not_elem_of_cons. tauto.
      * right. split; [|exact Hl]. apply list_elem_of_further, Hk.
Qed.

(** The positions after a round: a selected position went through
    [liquidate] once, at the price of the start of the round; the others
    are unchanged. *)
Lemma cascade_round_lookup (n : nat) (s s' : App.StressTestSimulation) (q : Q) :
  App.cascade_round n s = Ok (Some (s', q)) ->
  length (App.users s') = length (App.users s) /\
  forall i u, App.users s !! i = Some u ->
    (App.liquidatable (App.eth_reserve s) u = false /\
     App.users s' !! i = Some u) \/
    (App.liquidatable (App.eth_reserve s) u = true /\
     exists u' x, App.liquidate (App.eth_reserve s) u = Ok (u', x) /\
                  App.users s' !! i = Some u').
Proof.
  intros H. apply cascade_round_inv in H as (us & vol & _ & Hl & _ & _ & ->).
  cbn. split; [eapply liquidate_all_length, Hl|].
  intros i u Hu.
  assert (Hnd : NoDup (sort_desc (debt_at (App.users s))
                         (App.select (App.eth_reserve s) (App.users s)))).
  { rewrite sort_desc_perm. apply NoDup_select. }
  destruct (liquidate_all_lookup _ _ Hnd _ _ _ _ Hl i u Hu) as [[Hk Hi]|[Hk Hi]];
    rewrite sort_desc_perm, elem_of_select in Hk.
  - left. split; [|exact Hi].
    destruct (App.liquidatable (App.eth_reserve s) u) eqn:E; [|reflexivity].
    exfalso. apply Hk. eauto.
  - right. split; [|exact Hi].
    destruct Hk as (u0 & Hu0 & Hliq). congruence.
Qed.

(** The history only grows, and the loop keeps the configuration and the
    risk parameters of the reserve. *)
Lemma cascade_history (fuel : nat) :
  forall n s s',
    App.cascade fuel n s = Ok s' ->
    exists t, App.history s' = App.history s ++ t.
Proof.
  induction fuel as [|fuel IH]; cbn; intros n s s' H; [discriminate|].
  destruct (App.cascade_round (S n) s) as [[[s1 q]|]| |] eqn:Er;
    try discriminate; cbn in H.
  - apply cascade_round_fields in Er as (_ & _ & _ & _ & h & Eh & _).
    destruct (Qltb q 0.0001).
    + injection H as <-. eauto.
    + apply IH in H as [t Ht]. exists (h :: t).
      rewrite Ht, Eh, <- app_assoc. reflexivity.
  - injection H as <-. exists []. rewrite app_nil_r. reflexivity.
Qed.

(** ** Terminal positions *)

Lemma cascade_round_keeps_no_debt (n : nat) (s s' : App.StressTestSimulation)
  (q : Q) (i : nat) (u : User) :
  App.cascade_round n s = Ok (Some (s', q)) ->
  App.users s !! i = Some u -> usdc_debt u == 0 ->
  App.users s' !! i = Some u.
Proof.
  intros H Hu Hd. apply cascade_round_lookup in H as [_ H].
  destruct (H i u Hu) as [[_ E]|[E _]]; [exact E|].
  rewrite (no_debt_not_liquidatable _ _ Hd) in E. discriminate.
Qed.

Lemma cascade_keeps_no_debt (fuel : nat) :
  forall n s s' i u,
    App.cascade fuel n s = Ok s' ->
    App.users s !! i = Some u -> usdc_debt u == 0 ->
    App.users s' !! i = Some u.
Proof.
  induction fuel as [|fuel IH]; cbn; intros n s s' i u H Hu Hd; [discriminate|].
  destruct (App.cascade_round (S n) s) as [[[s1 q]|]| |] eqn:Er;
    try discriminate; cbn in H.
  - pose proof (cascade_round_keeps_no_debt _ _ _ _ _ _ Er Hu Hd) as Hu1.
    destruct (Qltb q 0.0001).
    + injection H as <-. exact Hu1.
    + eapply IH; eauto.
  - injection H as <-. exact Hu.
Qed.

(** C4.  When the collateral to seize exceeds the collateral of the
    position, [liquidate] seizes all of it, records
    [max(0, debt - collateral * price / (1 + LB))] as bad debt at the
    price of the round and zeroes collateral and debt; the health factor
    of the result is infinite at every price, so in any state that holds
    it the position is not selected, and no later round changes it. *)
Theorem wipe_out_terminal (r : ReserveConfig) (u : User) :
  ~ price r == 0 -> ~ 1 + lb r == 0 ->
  eth_collateral u < usdc_debt u * 0.5 * (1 + lb r) / price r ->
  exists u',
    App.liquidate r u = Ok (u', eth_collateral u) /\
    bad_debt u' =
      pymax 0 (usdc_debt u - eth_collateral u * price r / (1 + lb r)) /\
    eth_collateral u' = 0 /\ usdc_debt u' = 0 /\
    (forall r', App.calculate_hf u' r' = Inf) /\
    (forall s i, App.users s !! i = Some u' ->
       (i ∉ App.select (App.eth_reserve s) (App.users s)) /\
       forall fuel n s',
         App.cascade fuel n s = Ok s' -> App.users s' !! i = Some u').
Proof.
  intros Hp Hb Hlt. eexists. split; [apply liquidate_wipe_out; assumption|].
  cbn. do 3 (split; [reflexivity|]). split; [intros r'; reflexivity|].
  intros s i Hu. split.
  - rewrite elem_of_select. intros (u0 & Hu0 & Hl).
    rewrite Hu in Hu0. injection Hu0 as <-.
    rewrite no_debt_not_liquidatable in Hl; [discriminate | reflexivity].
  - intros fuel n s' H. eapply cascade_keeps_no_debt; eauto. reflexivity.
Qed.

(** The theorem at [retail_1500] once the price is $500: the collateral
    to seize, 1.575, exceeds the collateral, 1. *)
Lemma wipe_out_terminal_witness :
  exists u',
    App.liquidate reserve_500 retail_1500 = Ok (u', eth_collateral retail_1500) /\
    bad_debt u' =
      pymax 0 (usdc_debt retail_1500
               - eth_collateral retail_1500 * price reserve_500
                 / (1 + lb reserve_500)) /\
    eth_collateral u' = 0 /\ usdc_debt u' = 0 /\
    (forall r', App.calculate_hf u' r' = Inf) /\
    (forall s i, App.users s !! i = Some u' ->
       (i ∉ App.select (App.eth_reserve s) (App.users s)) /\
       forall fuel n s',
         App.cascade fuel n s = Ok s' -> App.users s' !! i = Some u').
Proof.
  apply (wipe_out_terminal reserve_500 retail_1500).
  - vm_compute. discriminate.
  - vm_compute. discriminate.
  - vm_compute. reflexivity.
Defined.

(** ** Monotonicity of a position *)

Lemma pymax_ge_l (a b : Q) : a <= pymax a b.
Proof.
  unfold pymax. destruct (Qltb a b) eqn:E.
  - apply Qltb_lt in E. lra.
  - lra.
Qed.

Lemma shrinks_refl (u : User) : shrinks u u.
Proof.
  unfold shrinks. repeat split; lra.
Qed.

Lemma shrinks_trans (u u1 u2 : User) :
  position_ok u2 -> shrinks u u1 -> shrinks u1 u2 -> shrinks u u2.
Proof.
  unfold position_ok, shrinks.
  intros (Hc & Hd & _ & _) (Hc1 & Hd1 & Hb1 & H1) (Hc2 & Hd2 & Hb2 & H2).
  destruct H1 as [H1|(H1 & H1c & H1d)];
    destruct H2 as [H2|(H2 & H2c & H2d)]; repeat split; lra.
Qed.

(** One call of [liquidate] at a positive price. *)
Lemma liquidate_shrinks (r : ReserveConfig) (u u' : User) (x : Q) :
  0 < price r -> 0 <= lb r -> position_ok u ->
  App.liquidate r u = Ok (u', x) ->
  position_ok u' /\ shrinks u u'.
Proof.
  intros Hp Hb (Hc & Hd & Hbad & Hor) H.
  assert (Hp0 : ~ price r == 0) by lra.
  assert (Hb0 : ~ 1 + lb r == 0) by lra.
  set (seize := usdc_debt u * 0.5 * (1 + lb r) / price r).
  assert (Es : seize * price r == usdc_debt u * 0.5 * (1 + lb r)).
  { unfold seize. field. exact Hp0. }
  destruct (Qlt_le_dec (eth_collateral u) seize) as [Hlt|Hle].
  - rewrite (liquidate_wipe_out _ _ Hp0 Hb0 Hlt) in H. injection H as <- <-.
    assert (Hd0 : 0 < usdc_debt u) by nra.
    assert (Hbad0 : bad_debt u == 0) by (destruct Hor; lra).
    pose proof (pymax_ge_l 0
      (usdc_debt u - eth_collateral u * price r / (1 + lb r))) as Hm.
    unfold position_ok, shrinks. cbn.
    repeat split; lra.
  - rewrite (liquidate_partial _ _ Hp0 Hle) in H. injection H as <- <-.
    fold seize. assert (Hs : 0 <= seize) by nra.
    unfold position_ok, shrinks. cbn. fold seize.
    repeat split; lra.
Qed.

Lemma cascade_round_shrinks (n : nat) (s s' : App.StressTestSimulation) (q : Q) :
  App.cascade_round n s = Ok (Some (s', q)) ->
  0 < price (App.eth_reserve s) -> 0 <= lb (App.eth_reserve s) ->
  Forall position_ok (App.users s) ->
  Forall2 shrinks (App.users s) (App.users s') /\
  Forall position_ok (App.users s').
Proof.
  intros H Hp Hb Hok. apply cascade_round_lookup in H as [Hlen H].
  assert (Hstep : forall i u u', App.users s !! i = Some u ->
            App.users s' !! i = Some u' -> position_ok u' /\ shrinks u u').
  { intros i u u' Hu Hu'.
    pose proof (proj1 (Forall_lookup _ _) Hok i u Hu) as Hoku.
    destruct (H i u Hu) as [[_ E]|(_ & u1 & x & El & E)];
      rewrite E in Hu'; injection Hu' as <-.
    - split; [exact Hoku | apply shrinks_refl].
    - eapply liquidate_shrinks; eauto. }
  split.
  - apply Forall2_same_length_lookup. split; [symmetry; exact Hlen|].
    intros i u u' Hu Hu'. apply (Hstep i u u' Hu Hu').
  - apply Forall_lookup. intros i u' Hu'.
    destruct (lookup_lt_is_Some_2 (App.users s) i) as [u Hu].
    { rewrite <- Hlen. eapply lookup_lt_Some, Hu'. }
    apply (Hstep i u u' Hu Hu').
Qed.

Lemma Forall2_shrinks_trans (l l1 l2 : list User) :
  Forall position_ok l2 ->
  Forall2 shrinks l l1 -> Forall2 shrinks l1 l2 -> Forall2 shrinks l l2.
Proof.
  intros Hok H1. revert l2 Hok.
  induction H1 as [|u u1 l l1 Hu Hl IH]; intros l2 Hok H2.
  - inversion H2. constructor.
  - inversion H2 as [|? u2 ? l2' Hu2 Hl2]; subst.
    inversion Hok as [|? ? Hok2 Hokl]; subst.
    constructor; [eapply shrinks_trans; eauto | eauto].
Qed.

Lemma Forall2_shrinks_refl (l : list User) : Forall2 shrinks l l.
Proof.
  induction l; constructor; [apply shrinks_refl | assumption].
Qed.

(** The whole loop, as long as the recorded prices stay positive. *)
Lemma cascade_shrinks (fuel : nat) :
  forall n s s',
    App.cascade fuel n s = Ok s' ->
    0 < price (App.eth_reserve s) -> 0 <= lb (App.eth_reserve s) ->
    Forall position_ok (App.users s) ->
    Forall (fun h => 0 < eth_price h)
      (drop (length (App.history s)) (App.history s')) ->
    Forall2 shrinks (App.users s) (App.users s') /\
    Forall position_ok (App.users s').
Proof.
  induction fuel as [|fuel IH]; cbn; intros n s s' H Hp Hb Hok Hh;
    [discriminate|].
  destruct (App.cascade_round (S n) s) as [[[s1 q]|]| |] eqn:Er;
    try discriminate; cbn in H.
  - destruct (cascade_round_shrinks _ _ _ _ Er Hp Hb Hok) as [H1 Hok1].
    destruct (cascade_round_fields _ _ _ _ Er)
      as (_ & _ & Elb & _ & h & Eh & _ & Ep).
    destruct (Qltb q 0.0001).
    + injection H as <-. split; assumption.
    + destruct (cascade_history _ _ _ _ H) as [t Et].
      rewrite Et, Eh, <- app_assoc, drop_app_length in Hh.
      inversion Hh as [|? ? Hh1 Hht]; subst.
      destruct (IH _ _ _ H) as [H2 Hok2].
      * rewrite <- Ep. exact Hh1.
      * rewrite Elb. exact Hb.
      * exact Hok1.
      * rewrite Et, drop_app_length. exact Hht.
      * split; [|exact Hok2]. eapply Forall2_shrinks_trans; eauto.
  - injection H as <-. split; [apply Forall2_shrinks_refl | exact Hok].
Qed.

(** C7, as stated, fails: in the thin market the first round drives the
    price negative, and the second round (the last of that run) then
    "seizes" a negative amount from the whale, whose collateral grows. *)
Lemma collateral_grows_in_thin_market :
  exists s g s1 q1 s2 q2 u1 u2,
    App.generate_users (App.new thin_market) 0%Z = Ok (s, g) /\
    App.cascade_round 1 (App.shock s) = Ok (Some (s1, q1)) /\
    App.cascade_round 2 s1 = Ok (Some (s2, q2)) /\
    App.run 3 (App.new thin_market) 0%Z = Ok (s2, g) /\
    App.users s1 !! 0%nat = Some u1 /\
    App.users s2 !! 0%nat = Some u2 /\
    price (App.eth_reserve s1) < 0 /\
    eth_collateral u1 < eth_collateral u2.
Proof.
  do 8 eexists.
  split; [vm_compute; reflexivity|].
  split; [vm_compute; reflexivity|].
  split; [vm_compute; reflexivity|].
  split; [vm_compute; reflexivity|].
  split; [reflexivity|]. split; [reflexivity|].
  split; reflexivity.
Qed.

(** C7 (amended).  The shock leaves the positions untouched.  From any
    state of the loop with a positive price and well-formed positions, as
    long as every price the loop records stays positive, no position's
    collateral or debt increases and no bad debt decreases; bad debt is
    either unchanged or was zero and the position is wiped out, and a
    position without debt is never mutated again. *)
Theorem positions_shrink (fuel n : nat) (s s' : App.StressTestSimulation) :
  App.cascade fuel n s = Ok s' ->
  0 < price (App.eth_reserve s) -> 0 <= lb (App.eth_reserve s) ->
  Forall position_ok (App.users s) ->
  Forall (fun h => 0 < eth_price h)
    (drop (length (App.history s)) (App.history s')) ->
  App.users (App.shock s) = App.users s /\
  Forall2 shrinks (App.users s) (App.users s') /\
  Forall position_ok (App.users s') /\
  (forall i u, App.users s !! i = Some u -> usdc_debt u == 0 ->
     App.users s' !! i = Some u).
Proof.
  intros H Hp Hb Hok Hh. split; [reflexivity|].
  destruct (cascade_shrinks _ _ _ _ H Hp Hb Hok Hh) as [H1 H2].
  repeat split; try assumption.
  intros i u Hu Hd. eapply cascade_keeps_no_debt; eauto.
Qed.

(** The theorem on the cascade from [small_state], one round with one
    partial liquidation. *)
Lemma positions_shrink_witness :
  App.users (App.shock small_state) = App.users small_state /\
  Forall2 shrinks (App.users small_state) (App.users small_state_after) /\
  Forall position_ok (App.users small_state_after) /\
  (forall i u, App.users small_state !! i = Some u -> usdc_debt u == 0 ->
     App.users small_state_after !! i = Some u).
Proof.
  apply (positions_shrink 1 0 small_state small_state_after).
  - vm_compute. reflexivity.
  - reflexivity.
  - vm_compute. discriminate.
  - constructor; [|constructor]. vm_compute.
    do 3 (split; [discriminate|]). right. reflexivity.
  - vm_compute. constructor; [reflexivity | constructor].
Defined.

(** ** Population generation *)

Section GenerationFacts.
Context {R : RandomSource} {L : RandomSourceLaws R}.

(** The ranges of the two draws of an iteration. *)
Lemma draw_position_range (c : App.SimulationConfig) (i : Z) (g : rng_state) :
  let '(eth_amt, target_hf, _) := App.draw_position c i g in
  0 < eth_amt /\ 1.01 <= target_hf /\ target_hf <= 2.0 /\
  (App.is_whale c i = true ->
   1000 <= eth_amt /\ eth_amt <= 10000 /\
   1.2 <= target_hf /\ target_hf <= 1.8).
Proof.
  unfold App.draw_position. destruct (App.is_whale c i).
  - pose proof (uniform_range 1000 10000 g) as H1.
    destruct (uniform 1000 10000 g) as [e g1].
    pose proof (uniform_range 1.2 1.8 g1) as H2.
    destruct (uniform 1.2 1.8 g1) as [t g2]. cbn in *.
    assert (1000 <= 10000) by (vm_compute; discriminate).
    assert (1.2 <= 1.8) by (vm_compute; discriminate).
    repeat split; intros; try lra; try tauto.
  - pose proof (exponential_pos 10 g) as H1.
    destruct (exponential 10 g) as [e g1].
    pose proof (uniform_range 1.01 2.0 g1) as H2.
    destruct (uniform 1.01 2.0 g1) as [t g2]. cbn in *.
    assert (0 < 10) by reflexivity.
    assert (1.01 <= 2.0) by (vm_compute; discriminate).
    repeat split; intros; try lra; try tauto; try discriminate.
Qed.

(** An iteration of the loop never raises, and builds the position from
    the two draws. *)
Lemma generate_user_ok (c : App.SimulationConfig) (r : ReserveConfig)
  (i : Z) (g : rng_state) :
  let '(eth_amt, target_hf, g') := App.draw_position c i g in
  App.generate_user c r i g =
  Ok (new_user i eth_amt (eth_amt * price r * lt r / target_hf), g').
Proof.
  unfold App.generate_user.
  pose proof (draw_position_range c i g) as H.
  destruct (App.draw_position c i g) as [[e t] g'].
  rewrite fdiv_ok by lra. reflexivity.
Qed.

Lemma generate_loop_ok (c : App.SimulationConfig) (r : ReserveConfig)
  (idx : list Z) :
  forall us g, exists us' g',
    App.generate_loop c r idx us g = Ok (us ++ us', g') /\
    Forall2 (drawn c r) idx us'.
Proof.
  induction idx as [|i idx IH]; cbn; intros us g.
  - exists [], g. rewrite app_nil_r. split; [reflexivity | constructor].
  - pose proof (generate_user_ok c r i g) as Hu.
    assert (Hd : exists u g1, App.generate_user c r i g = Ok (u, g1) /\
                              drawn c r i u).
    { unfold drawn. destruct (App.draw_position c i g) as [[e t] g1] eqn:E.
      do 2 eexists. split; [exact Hu|]. exists g. rewrite E. reflexivity. }
    destruct Hd as (u & g1 & -> & Hdrawn). cbn.
    destruct (IH (us ++ [u]) g1) as (us' & g' & -> & Hall).
    exists (u :: us'), g'. rewrite <- app_assoc. split; [reflexivity|].
    constructor; assumption.
Qed.

(** [generate_users] on a fresh object: it returns, with [num_users]
    positions (none when [num_users <= 0]), the one at position [i] built
    by iteration [i]. *)
Lemma generate_users_ok (c : App.SimulationConfig) (g : rng_state) :
  exists us g',
    App.generate_users (App.new c) g =
      Ok (App.mkSim c (App.eth_reserve (App.new c)) us [], g') /\
    length us = Z.to_nat (App.num_users c) /\
    forall (i : nat) u, us !! i = Some u ->
      drawn c (App.eth_reserve (App.new c)) (Z.of_nat i) u.
Proof.
  unfold App.generate_users.
  destruct (generate_loop_ok c (App.eth_reserve (App.new c))
              (range (App.num_users c)) [] (seed 42)) as (us & g' & E & Hall).
  exists us, g'. cbn in *. rewrite E. cbn. split; [reflexivity|].
  split.
  - rewrite <- (Forall2_length _ _ _ Hall). unfold range.
    rewrite length_fmap, length_seq. reflexivity.
  - intros i u Hu.
    destruct (Forall2_lookup_r _ _ _ _ _ Hall Hu) as (z & Hz & Hd).
    unfold range in Hz. rewrite list_lookup_fmap in Hz.
    destruct (seq 0 (Z.to_nat (App.num_users c)) !! i) as [k|] eqn:Ek;
      [|discriminate].
    apply lookup_seq in Ek as [-> _]. cbn in Hz. injection Hz as <-.
    exact Hd.
Qed.

(** A generated position is not liquidatable at the price it was
    generated at; its health factor is its target unless it has no debt. *)
Lemma drawn_hf (c : App.SimulationConfig) (r r' : ReserveConfig)
  (i : Z) (g : rng_state) :
  price r' == price r -> lt r' = lt r ->
  let '(eth_amt, target_hf, _) := App.draw_position c i g in
  let u := new_user i eth_amt (eth_amt * price r * lt r / target_hf) in
  App.liquidatable r' u = false /\
  (~ price r * lt r == 0 ->
   exists h, App.calculate_hf u r' = Fin h /\ h == target_hf).
Proof.
  intros Hp Hlt. pose proof (draw_position_range c i g) as H.
  destruct (App.draw_position c i g) as [[e t] g']. cbn zeta.
  destruct H as (He & Ht & _).
  set (u := new_user i e (e * price r * lt r / t)).
  assert (Hh : ~ usdc_debt u == 0 ->
               eth_collateral u * price r' * lt r' / usdc_debt u == t).
  { cbn. intros Hd. rewrite Hlt, Hp.
    assert (Hn : ~ e * price r * lt r == 0).
    { intros E. apply Hd. rewrite E. field. lra. }
    field. repeat split; try lra.
    - intros E. apply Hn. rewrite <- Qmult_assoc, E. ring.
    - intros E. apply Hn. rewrite E. ring. }
  split.
  - unfold App.liquidatable.
    destruct (Qeq_dec (usdc_debt u) 0) as [Hd|Hd].
    + rewrite (calculate_hf_inf _ _ Hd). reflexivity.
    + rewrite (calculate_hf_fin _ _ Hd). cbn [hf_ltb].
      apply Qltb_ge. rewrite (Hh Hd).
      assert (1.0 <= 1.01) by (vm_compute; discriminate). lra.
  - intros Hn. assert (Hd : ~ usdc_debt u == 0).
    { cbn. intros E.
      assert (E' : e * (price r * lt r) == 0).
      { assert (E1 : e * (price r * lt r) == e * price r * lt r / t * t)
          by (field; lra).
        rewrite E1, E. ring. }
      apply Qmult_integral in E'. destruct E'; [lra | tauto]. }
    eexists. split; [apply calculate_hf_fin, Hd | exact (Hh Hd)].
Qed.

(** With a non-negative start price the generated positions are
    well-formed, so the monotonicity results apply to every such run. *)
Lemma generated_positions_ok (c : App.SimulationConfig) (g g' : rng_state)
  (s : App.StressTestSimulation) :
  0 <= App.start_price c ->
  App.generate_users (App.new c) g = Ok (s, g') ->
  Forall position_ok (App.users s).
Proof.
  intros Hp H. destruct (generate_users_ok c g) as (us & g1 & E & _ & Hall).
  rewrite E in H. injection H as <- _. cbn [App.users].
  apply Forall_lookup. intros i u Hu. destruct (Hall i u Hu) as [g0 Hd].
  pose proof (draw_position_range c (Z.of_nat i) g0) as Hr.
  destruct (App.draw_position c (Z.of_nat i) g0) as [[e t] g2].
  destruct Hr as (He & Ht & _). subst u. unfold position_ok. cbn.
  split; [lra|]. split.
  - apply Qle_shift_div_l; [lra|]. nra.
  - split; [discriminate | right; reflexivity].
Qed.

End GenerationFacts.

(** C3.  With a start price other than zero, [generate_users] returns
    [num_users] positions; the position at index [i] holds the collateral
    drawn by iteration [i], its health factor at the pre-shock reserve is
    the finite value equal to the drawn target, at least 1.01 (within
    [1.2, 1.8] for a whale), and it is not liquidatable. *)
Theorem generated_hf_is_target {R : RandomSource} {L : RandomSourceLaws R}
  (c : App.SimulationConfig) (g : rng_state) :
  ~ App.start_price c == 0 ->
  exists s g',
    App.generate_users (App.new c) g = Ok (s, g') /\
    length (App.users s) = Z.to_nat (App.num_users c) /\
    forall (i : nat) u, App.users s !! i = Some u ->
      exists g0,
        let '(eth_amt, target_hf, _) := App.draw_position c (Z.of_nat i) g0 in
        eth_collateral u = eth_amt /\
        (exists h, App.calculate_hf u (App.eth_reserve s) = Fin h /\
                   h == target_hf /\ 1.01 <= h) /\
        (App.is_whale c (Z.of_nat i) = true ->
         1.2 <= target_hf /\ target_hf <= 1.8) /\
        target_hf <= 2.0 /\
        App.liquidatable (App.eth_reserve s) u = false.
Proof.
  intros Hp. destruct (generate_users_ok c g) as (us & g' & E & Hlen & Hall).
  do 2 eexists. split; [exact E|]. cbn [App.users App.eth_reserve].
  split; [exact Hlen|]. intros i u Hu.
  destruct (Hall i u Hu) as [g0 Hd]. exists g0.
  set (r := App.eth_reserve (App.new c)) in *.
  pose proof (draw_position_range c (Z.of_nat i) g0) as Hr.
  pose proof (drawn_hf c r r (Z.of_nat i) g0 (Qeq_refl _) eq_refl) as Hh.
  destruct (App.draw_position c (Z.of_nat i) g0) as [[e t] g1].
  cbn zeta in Hh. rewrite <- Hd in Hh. destruct Hh as [Hl Hh].
  destruct Hr as (He & Ht & Ht2 & Hw).
  split; [rewrite Hd; reflexivity|].
  split.
  - destruct Hh as (h & Eh & Et).
    + cbn. intros E0. apply Qmult_integral in E0.
      destruct E0 as [E0|E0]; [tauto | discriminate E0].
    + exists h. repeat split; [exact Eh | exact Et | lra].
  - repeat split; try tauto; assumption.
Qed.

(** The theorem for [calm_market] and the cyclic source. *)
Lemma generated_hf_is_target_witness :
  exists s g',
    App.generate_users (App.new calm_market) 0%Z = Ok (s, g') /\
    length (App.users s) = Z.to_nat (App.num_users calm_market) /\
    forall (i : nat) u, App.users s !! i = Some u ->
      exists g0,
        let '(eth_amt, target_hf, _) :=
          App.draw_position calm_market (Z.of_nat i) g0 in
        eth_collateral u = eth_amt /\
        (exists h, App.calculate_hf u (App.eth_reserve s) = Fin h /\
                   h == target_hf /\ 1.01 <= h) /\
        (App.is_whale calm_market (Z.of_nat i) = true ->
         1.2 <= target_hf /\ target_hf <= 1.8) /\
        target_hf <= 2.0 /\
        App.liquidatable (App.eth_reserve s) u = false.
Proof.
  apply (generated_hf_is_target (L := cyclic_laws) calm_market 0%Z).
  vm_compute. discriminate.
Defined.

(** C5, as stated, fails: no configuration is rejected.  With a negative
    liquidity depth the run generates its two users, applies the shock,
    liquidates in round 1 and returns two snapshots. *)
Lemma negative_depth_is_not_rejected :
  exists s g,
    App.market_liquidity_depth negative_depth < 0 /\
    App.run 2 (App.new negative_depth) 0%Z = Ok (s, g) /\
    length (App.users s) = 2%nat /\
    stage <$> App.history s = ["Post-Shock"; "Round 1"].
Proof.
  do 2 eexists. split; [reflexivity|].
  split; [vm_compute; reflexivity|]. split; reflexivity.
Qed.

(** With a depth of zero the error appears in the middle of the run, in
    the market-impact step of round 1, after the users were generated and
    liquidated. *)
Lemma zero_depth_raises_in_round_one :
  exists s g,
    App.generate_users (App.new zero_depth) 0%Z = Ok (s, g) /\
    length (App.users s) = 2%nat /\
    App.select (App.eth_reserve (App.shock s)) (App.users (App.shock s))
      = [0%nat] /\
    App.run 1 (App.new zero_depth) 0%Z = Raise ZeroDivisionError.
Proof.
  do 2 eexists. split; [vm_compute; reflexivity|].
  split; [reflexivity|]. split; vm_compute; reflexivity.
Qed.

(** C5 (amended).  The code validates nothing: for every configuration,
    valid or not, [run] starts by generating [max(0, num_users)] positions
    under that configuration, and the shock then records the snapshot
    "Post-Shock". *)
Theorem generation_accepts_every_config
  {R : RandomSource} {L : RandomSourceLaws R}
  (c : App.SimulationConfig) (g : rng_state) :
  exists s g' h,
    App.generate_users (App.new c) g = Ok (s, g') /\
    App.config s = c /\
    length (App.users s) = Z.to_nat (App.num_users c) /\
    App.history (App.shock s) = [h] /\
    stage h = "Post-Shock" /\
    eth_price h = App.start_price c * (1 - App.eth_price_drop c).
Proof.
  destruct (generate_users_ok c g) as (us & g' & E & Hlen & _).
  do 3 eexists. split; [exact E|]. cbn.
  repeat split. exact Hlen.
Qed.

(** The theorem for the configuration with a negative depth. *)
Lemma generation_accepts_every_config_witness :
  exists s g' h,
    App.generate_users (App.new negative_depth) 0%Z = Ok (s, g') /\
    App.config s = negative_depth /\
    length (App.users s) = Z.to_nat (App.num_users negative_depth) /\
    App.history (App.shock s) = [h] /\
    stage h = "Post-Shock" /\
    eth_price h =
      App.start_price negative_depth * (1 - App.eth_price_drop negative_depth).
Proof.
  apply (generation_accepts_every_config (L := cyclic_laws) negative_depth 0%Z).
Defined.

(** ** The whale split *)





(** ** A run without a shock *)

Lemma select_nil (r : ReserveConfig) (us : list User) :
  (forall i u, us !! i = Some u -> App.liquidatable r u = false) ->
  App.select r us = [].
Proof.
  intros H. destruct (App.select r us) as [|i sel] eqn:E; [reflexivity|].
  assert (Hi : i ∈ App.select r us) by (rewrite E; apply list_elem_of_here).
  apply elem_of_select in Hi as (u & Hu & Hl).
  rewrite (H i u Hu) in Hl. discriminate.
Qed.

(** C8.  With a price drop of zero the shock leaves the price at the
    start price, the selection of round 1 is empty, the loop stops before
    any liquidation, and the history of the run is the single snapshot
    "Post-Shock". *)
Theorem zero_drop_run {R : RandomSource} {L : RandomSourceLaws R}
  (c : App.SimulationConfig) (g : rng_state) (fuel : nat) :
  App.eth_price_drop c == 0 ->
  exists s0 g' h,
    App.generate_users (App.new c) g = Ok (s0, g') /\
    price (App.eth_reserve (App.shock s0)) == App.start_price c /\
    App.select (App.eth_reserve (App.shock s0)) (App.users (App.shock s0)) = [] /\
    App.cascade_round 1 (App.shock s0) = Ok None /\
    App.run (S fuel) (App.new c) g = Ok (App.shock s0, g') /\
    App.users (App.shock s0) = App.users s0 /\
    App.history (App.shock s0) = [h] /\
    stage h = "Post-Shock" /\
    eth_price h == App.start_price c /\
    liquidatable_users h = 0%nat.
Proof.
  intros Hdrop. destruct (generate_users_ok c g) as (us & g' & E & _ & Hall).
  set (s0 := App.mkSim c (App.eth_reserve (App.new c)) us []) in *.
  assert (Hp : price (App.eth_reserve (App.shock s0)) == App.start_price c).
  { cbn. rewrite Hdrop. ring. }
  assert (Hno : forall i u, App.users (App.shock s0) !! i = Some u ->
                  App.liquidatable (App.eth_reserve (App.shock s0)) u = false).
  { intros i u Hu. destruct (Hall i u Hu) as [g0 Hd].
    pose proof (drawn_hf c (App.eth_reserve (App.new c))
                  (App.eth_reserve (App.shock s0)) (Z.of_nat i) g0 Hp eq_refl)
      as Hh.
    destruct (App.draw_position c (Z.of_nat i) g0) as [[e t] g1].
    cbn zeta in Hh. rewrite <- Hd in Hh. apply Hh. }
  assert (Hsel : App.select (App.eth_reserve (App.shock s0))
                   (App.users (App.shock s0)) = []).
  { apply select_nil, Hno. }
  assert (Hround : App.cascade_round 1 (App.shock s0) = Ok None).
  { apply cascade_round_none, Hsel. }
  exists s0, g'. eexists.
  split; [exact E|]. split; [exact Hp|]. split; [exact Hsel|].
  split; [exact Hround|]. split.
  { unfold App.run. rewrite E. cbn [mbind result_bind].
    cbn [App.cascade]. rewrite Hround. reflexivity. }
  split; [reflexivity|]. split; [reflexivity|]. split; [reflexivity|].
  split; [exact Hp|].
  cbn [liquidatable_users].
  assert (Hf : List.filter (App.liquidatable (App.eth_reserve (App.shock s0)))
                 (App.users (App.shock s0)) = []).
  { destruct (List.filter _ _) as [|u l] eqn:Ef; [reflexivity|].
    assert (Hu : u ∈ List.filter
                   (App.liquidatable (App.eth_reserve (App.shock s0)))
                   (App.users (App.shock s0)))
      by (rewrite Ef; apply list_elem_of_here).
    apply elem_of_list_filter in Hu as [Hu Hl].
    apply list_elem_of_lookup in Hu as [i Hi].
    rewrite (Hno i u Hi) in Hl. discriminate. }
  cbn in Hf |- *. rewrite Hf. reflexivity.
Qed.

(** The theorem for [no_shock] and the cyclic source, with one unit of
    fuel. *)
Lemma zero_drop_run_witness :
  exists s0 g' h,
    App.generate_users (App.new no_shock) 0%Z = Ok (s0, g') /\
    price (App.eth_reserve (App.shock s0)) == App.start_price no_shock /\
    App.select (App.eth_reserve (App.shock s0)) (App.users (App.shock s0)) = [] /\
    App.cascade_round 1 (App.shock s0) = Ok None /\
    App.run 1 (App.new no_shock) 0%Z = Ok (App.shock s0, g') /\
    App.users (App.shock s0) = App.users s0 /\
    App.history (App.shock s0) = [h] /\
    stage h = "Post-Shock" /\
    eth_price h == App.start_price no_shock /\
    liquidatable_users h = 0%nat.
Proof.
  apply (zero_drop_run (L := cyclic_laws) no_shock 0%Z 0).
  reflexivity.
Defined.

(** ** Determinism *)

(** C9.  [generate_users] reseeds the generator with 42 before the first
    draw: whatever the state of the global generator when it is called,
    two executions under the same configuration return the same result,
    hence the same population, position by position. *)
Theorem generation_deterministic {R : RandomSource}
  (s : App.StressTestSimulation) (g1 g2 : rng_state) :
  App.generate_users s g1 = App.generate_users s g2.
Proof.
  unfold App.generate_users. reflexivity.
Qed.

(** ** The two entry points *)

Lemma calculate_hf_agree (u : User) (r : ReserveConfig) :
  Batch.calculate_hf u r = App.calculate_hf u r.
Proof. reflexivity. Qed.

Lemma liquidate_agree (r : ReserveConfig) (u : User) :
  Batch.liquidate r u = App.liquidate r u.
Proof. reflexivity. Qed.

Lemma liquidate_all_agree (r : ReserveConfig) (sel : list nat) :
  forall us vol,
    Batch.liquidate_all r sel us vol = App.liquidate_all r sel us vol.
Proof.
  induction sel as [|i sel IH]; cbn; intros us vol; [reflexivity|].
  destruct (us !! i) as [u|]; [|apply IH].
  rewrite liquidate_agree.
  destruct (App.liquidate r u) as [[u' x]| |]; cbn; [apply IH | | ];
    reflexivity.
Qed.

Lemma snapshot_state_agree (b : Batch.StressTestSimulation) (st : string) :
  App._snapshot_state (as_app b) st = as_app (Batch._snapshot_state b st).
Proof. reflexivity. Qed.

Lemma shock_agree (b : Batch.StressTestSimulation) :
  App.shock (as_app b) = as_app (Batch.run_shock_phase b).
Proof. reflexivity. Qed.

Lemma cascade_agree (fuel : nat) :
  forall n b,
    App.cascade fuel n (as_app b) =
    as_app <$> Batch.run_liquidation_cascade fuel n b.
Proof.
  induction fuel as [|fuel IH]; intros n b; [reflexivity|].
  cbn [App.cascade Batch.run_liquidation_cascade].
  unfold App.cascade_round.
  change (App.select (App.eth_reserve (as_app b)) (App.users (as_app b)))
    with (List.filter
            (fun i => match Batch.users b !! i with
                      | Some u =>
                          hf_ltb (Batch.calculate_hf u (Batch.eth_reserve b)) 1.0
                      | None => false
                      end)
            (seq 0 (length (Batch.users b)))).
  destruct (List.filter _ _) as [|i sel]; [reflexivity|].
  cbn [App.eth_reserve App.users App.config as_app
       App.market_liquidity_depth].
  rewrite <- liquidate_all_agree.
  destruct (Batch.liquidate_all _ _ _ _) as [[us vol]| |]; cbn; try reflexivity.
  destruct (fdiv _ _) as [q| |]; cbn; try reflexivity.
  destruct (Qltb (q * 0.01) 0.0001); [reflexivity|].
  apply (IH (S n)
           (Batch._snapshot_state
              (Batch.mkSim (Batch.config b)
                 (set_price (Batch.eth_reserve b)
                    (price (Batch.eth_reserve b) * (1 - q * 0.01)))
                 us (Batch.history b))
              ("Round " +:+ pretty (S n)))).
Qed.

Section Agreement.
Context {R : RandomSource}.

Lemma generate_user_agree (b : Batch.StressTestSimulation)
  (r : ReserveConfig) (i : Z) (g : rng_state) :
  Batch.generate_user (Batch.config b) r i g =
  App.generate_user (App.config (as_app b)) r i g.
Proof.
  unfold Batch.generate_user, App.generate_user, App.draw_position,
    App.is_whale.
  cbn [as_app App.config App.num_users App.whale_concentration].
  destruct (Qltb _ _).
  - destruct (uniform 1000 10000 g) as [e g1].
    destruct (uniform 1.2 1.8 g1) as [t g2]. reflexivity.
  - destruct (exponential 10 g) as [e g1].
    destruct (uniform 1.01 2.0 g1) as [t g2]. reflexivity.
Qed.

Lemma generate_loop_agree (b : Batch.StressTestSimulation)
  (r : ReserveConfig) (idx : list Z) :
  forall us g,
    Batch.generate_loop (Batch.config b) r idx us g =
    App.generate_loop (App.config (as_app b)) r idx us g.
Proof.
  induction idx as [|i idx IH]; intros us g; [reflexivity|].
  cbn [Batch.generate_loop App.generate_loop].
  rewrite generate_user_agree.
  destruct (App.generate_user _ r i g) as [[u g1]| |]; cbn;
    [apply IH | | ]; reflexivity.
Qed.

Lemma generate_users_agree (b : Batch.StressTestSimulation) (g : rng_state) :
  App.generate_users (as_app b) g =
  (fun x => (as_app (fst x), snd x)) <$> Batch.generate_users b g.
Proof.
  unfold App.generate_users, Batch.generate_users.
  rewrite generate_loop_agree.
  cbn [as_app App.config App.eth_reserve App.users App.num_users].
  destruct (App.generate_loop _ _ _ _ _) as [[us g1]| |]; reflexivity.
Qed.

End Agreement.

(** C10.  Under the configuration hard-coded in the batch script, the
    batch script and the interactive driver produce the same outcome: the
    same history, snapshot by snapshot, when they return, and otherwise
    the same error or the same exhaustion of fuel. *)
Theorem entry_points_agree {R : RandomSource} (fuel : nat) (g : rng_state) :
  (fun x => Batch.history (fst x)) <$> Batch.main fuel g =
  (fun x => App.history (fst x)) <$> App.run fuel (App.new batch_config) g.
Proof.
  change (App.new batch_config) with (as_app Batch.new).
  unfold App.run, Batch.main. rewrite generate_users_agree.
  destruct (Batch.generate_users Batch.new g) as [[b g1]| |]; cbn;
    try reflexivity.
  rewrite (shock_agree b), cascade_agree.
  destruct (Batch.run_liquidation_cascade fuel 0 (Batch.run_shock_phase b))
    as [b'| |]; reflexivity.
Qed.

(** ** The thin market, for every lawful source *)

(** A round over a population of one liquidatable position that is
    partially liquidated. *)
Lemma cascade_round_single (n : nat) (s : App.StressTestSimulation) (u : User) :
  let r := App.eth_reserve s in
  let seize := usdc_debt u * 0.5 * (1 + lb r) / price r in
  App.users s = [u] ->
  App.liquidatable r u = true ->
  ~ price r == 0 -> seize <= eth_collateral u ->
  ~ App.market_liquidity_depth (App.config s) == 0 ->
  exists s',
    App.cascade_round n s =
      Ok (Some (s', (0 + seize) * price r
                    / App.market_liquidity_depth (App.config s) * 0.01)) /\
    price (App.eth_reserve s') =
      price r * (1 - (0 + seize) * price r
                     / App.market_liquidity_depth (App.config s) * 0.01).
Proof.
  intros r seize Hu Hl Hp Hle Hd. unfold App.cascade_round, App.select.
  fold r. rewrite Hu. cbn [length seq List.filter lookup list_lookup].
  rewrite Hl. cbn [sort_desc foldr insert_desc App.liquidate_all
                   lookup list_lookup].
  rewrite (liquidate_partial r u Hp Hle). cbn [mbind result_bind].
  fold seize. cbn [App.liquidate_all mbind result_bind mret result_ret].
  rewrite (fdiv_ok _ _ Hd). cbn [mbind result_bind mret result_ret].
  eexists. split; reflexivity.
Qed.

Section ThinMarket.
Context {R : RandomSource} {L : RandomSourceLaws R}.

(** Whatever the draws, the first round of the thin market has a slippage
    fraction above 1 and ends at a negative price. *)
Lemma thin_market_round_one (g : rng_state) :
  exists s0 g' s1 q,
    App.generate_users (App.new thin_market) g = Ok (s0, g') /\
    App.cascade_round 1 (App.shock s0) = Ok (Some (s1, q)) /\
    1 < q /\ price (App.eth_reserve s1) < 0.
Proof.
  destruct (generate_users_ok thin_market g) as (us & g' & E & Hlen & Hall).
  destruct us as [|u [|u2 us]]; try discriminate Hlen.
  destruct (Hall 0%nat u eq_refl) as [g0 Hd].
  pose proof (draw_position_range thin_market 0 g0) as Hr.
  change (Z.of_nat 0) with 0%Z in Hd.
  destruct (App.draw_position thin_market 0 g0) as [[e t] g1].
  destruct Hr as (_ & _ & _ & Hr). specialize (Hr eq_refl).
  destruct Hr as (He1 & He2 & Ht1 & Ht2).
  cbn [App.new App.eth_reserve price lt thin_market App.start_price] in Hd.
  set (d := e * 2000 * 0.825 / t) in Hd.
  assert (Ed : d * t == e * 1650).
  { unfold d. field. lra. }
  clearbody d.
  assert (Hd0 : 0 < d).
  { destruct (Qlt_le_dec 0 d) as [H|H]; [exact H|].
    assert (d * t <= 0) by nra. lra. }
  assert (Hd1 : 916.6 * e <= d).
  { assert (0 <= d * (1.8 - t)) by (apply Qmult_le_0_compat; lra). lra. }
  assert (Hd2 : d <= 1375 * e).
  { assert (0 <= d * (t - 1.2)) by (apply Qmult_le_0_compat; lra). lra. }
  set (s0 := App.mkSim thin_market (App.eth_reserve (App.new thin_market))
               [u] []) in *.
  set (r := App.eth_reserve (App.shock s0)).
  assert (Epr : price r == 1000) by reflexivity.
  assert (Elt : lt r == 0.825) by reflexivity.
  assert (Elb : lb r == 0.05) by reflexivity.
  assert (Ec : eth_collateral u = e) by (rewrite Hd; reflexivity).
  assert (Edebt : usdc_debt u = d) by (rewrite Hd; reflexivity).
  set (seize := usdc_debt u * 0.5 * (1 + lb r) / price r).
  assert (Es : seize * 1000 == d * 0.525).
  { unfold seize. rewrite Edebt, Elb, Epr. field. }
  destruct (cascade_round_single 1 (App.shock s0) u) as (s1 & Er & Ep).
  - reflexivity.
  - fold r. unfold App.liquidatable.
    rewrite calculate_hf_fin by (rewrite Edebt; lra).
    cbn [hf_ltb]. apply Qltb_lt. rewrite Ec, Edebt, Epr, Elt.
    apply Qlt_shift_div_r; [lra|].
    assert (H10 : 1.0 == 1) by reflexivity. rewrite H10. lra.
  - fold r. rewrite Epr. discriminate.
  - fold r seize. rewrite Ec. lra.
  - discriminate.
  - fold r seize in Er, Ep. exists s0, g'. do 2 eexists.
    split; [exact E|]. split; [exact Er|].
    assert (Eq : (0 + seize) * price r
                 / App.market_liquidity_depth (App.config (App.shock s0))
                 * 0.01 == seize * 10).
    { rewrite Epr. change (App.market_liquidity_depth _) with 1. field. }
    split; [rewrite Eq; lra|]. rewrite Ep, Eq, Epr. nra.
Qed.

End ThinMarket.

(** ** Liquidation at a negative price *)

(** Once the price is negative, every position with debt is selected
    (its health factor is not positive), the collateral to seize is
    negative, and the "partial liquidation" adds collateral. *)
Lemma negative_price_grows_collateral (r : ReserveConfig) (u : User) :
  price r < 0 -> 0 <= lt r -> 0 < 1 + lb r ->
  0 < usdc_debt u -> 0 <= eth_collateral u ->
  exists u' x,
    App.liquidatable r u = true /\
    App.liquidate r u = Ok (u', x) /\
    eth_collateral u < eth_collateral u'.
Proof.
  intros Hp Hlt Hb Hd Hc.
  assert (Hp0 : ~ price r == 0) by lra.
  set (seize := usdc_debt u * 0.5 * (1 + lb r) / price r).
  assert (Es : seize * price r == usdc_debt u * 0.5 * (1 + lb r)).
  { unfold seize. field. exact Hp0. }
  clearbody seize.
  assert (Hpos : 0 < usdc_debt u * 0.5 * (1 + lb r)).
  { apply Qmult_lt_0_compat; lra. }
  assert (Hs : seize < 0).
  { destruct (Qlt_le_dec seize 0) as [H|H]; [exact H|].
    assert (seize * price r <= 0) by nra. lra. }
  do 2 eexists. split; [|split].
  - unfold App.liquidatable. rewrite calculate_hf_fin by lra.
    cbn [hf_ltb]. apply Qltb_lt. apply Qlt_shift_div_r; [exact Hd|].
    assert (H10 : 1.0 == 1) by reflexivity. rewrite H10.
    assert (Hcp : eth_collateral u * price r <= 0) by nra.
    assert (eth_collateral u * price r * lt r <= 0) by nra. lra.
  - apply liquidate_partial; [exact Hp0|].
    setoid_replace (usdc_debt u * 0.5 * (1 + lb r) / price r) with seize
      using relation Qeq.
    + lra.
    + rewrite <- Es. field. exact Hp0.
  - cbn.
    setoid_replace (usdc_debt u * 0.5 * (1 + lb r) / price r) with seize
      using relation Qeq.
    + lra.
    + rewrite <- Es. field. exact Hp0.
Qed.

(** ** Monotonicity over a whole run *)

Section RunFacts.
Context {R : RandomSource} {L : RandomSourceLaws R}.

(** For a run of the interactive driver from a non-negative start price:
    if every recorded price is positive, the final positions are the
    generated ones, shrunk. *)
Lemma run_positions_shrink (fuel : nat) (c : App.SimulationConfig)
  (g g' : rng_state) (s : App.StressTestSimulation) :
  0 <= App.start_price c ->
  App.run fuel (App.new c) g = Ok (s, g') ->
  Forall (fun h => 0 < eth_price h) (App.history s) ->
  exists s0,
    App.generate_users (App.new c) g = Ok (s0, g') /\
    Forall2 shrinks (App.users s0) (App.users s) /\
    Forall position_ok (App.users s).
Proof.
  intros Hp H Hh. unfold App.run in H.
  destruct (App.generate_users (App.new c) g) as [[s0 g0]| |] eqn:E;
    try discriminate.
  cbn [mbind result_bind] in H.
  destruct (App.cascade fuel 0 (App.shock s0)) as [s1| |] eqn:Ec;
    try discriminate.
  injection H as -> ->. exists s0. split; [reflexivity|].
  pose proof (generated_positions_ok c g g' s0 Hp E) as Hok.
  destruct (generate_users_ok c g) as (us & g1 & E1 & _ & _).
  rewrite E1 in E. injection E as <- _.
  destruct (cascade_history _ _ _ _ Ec) as [t Et].
  rewrite Et in Hh. cbn [App.history App.shock App._snapshot_state
                         App.set_state app] in Hh.
  inversion Hh as [|h0 t0 Hh0 Ht]; subst.
  apply (cascade_shrinks fuel 0 _ s Ec).
  - exact Hh0.
  - cbn. discriminate.
  - exact Hok.
  - rewrite Et. cbn [App.history App.shock App._snapshot_state
                     App.set_state app length drop]. exact Ht.
Qed.

End RunFacts.

(** * Further properties of the engine *)

(** ** The state dictionary of a position *)

(** X1.  For a position with debt, [get_state] reports the collateral
    value at the reserve price and the health factor
    [collateral_usd * LT / debt_usd]; the reported health factor is below
    1.0 exactly when the risk-adjusted collateral value is below the
    debt. *)
Theorem get_state_health (u : User) (r : ReserveConfig) :
  0 < usdc_debt u ->
  Batch.st_collateral_usd (Batch.get_state u r) = eth_collateral u * price r /\
  Batch.st_debt_usd (Batch.get_state u r) = usdc_debt u /\
  Batch.st_hf (Batch.get_state u r) =
    Fin (Batch.st_collateral_usd (Batch.get_state u r) * lt r
         / Batch.st_debt_usd (Batch.get_state u r)) /\
  (hf_ltb (Batch.st_hf (Batch.get_state u r)) 1.0 = true <->
   Batch.st_collateral_usd (Batch.get_state u r) * lt r
     < Batch.st_debt_usd (Batch.get_state u r)).
Proof.
  intros Hd. assert (Hd0 : ~ usdc_debt u == 0) by lra.
  unfold Batch.get_state. cbn [Batch.st_collateral_usd Batch.st_debt_usd Batch.st_hf].
  rewrite calculate_hf_agree, (calculate_hf_fin _ _ Hd0).
  do 3 (split; [reflexivity|]). cbn [hf_ltb]. rewrite Qltb_lt.
  assert (H10 : 1.0 == 1) by reflexivity. rewrite H10. split; intros H.
  - apply (Qmult_lt_r _ _ (usdc_debt u) Hd) in H.
    assert (E : eth_collateral u * price r * lt r / usdc_debt u * usdc_debt u
                == eth_collateral u * price r * lt r) by (field; exact Hd0).
    rewrite E in H. lra.
  - apply Qlt_shift_div_r; [exact Hd | lra].
Qed.

(** The theorem at [retail_1500] and a price of $1000. *)
Lemma get_state_health_witness :
  Batch.st_collateral_usd (Batch.get_state retail_1500 reserve_1000)
    = eth_collateral retail_1500 * price reserve_1000 /\
  Batch.st_debt_usd (Batch.get_state retail_1500 reserve_1000)
    = usdc_debt retail_1500 /\
  Batch.st_hf (Batch.get_state retail_1500 reserve_1000) =
    Fin (Batch.st_collateral_usd (Batch.get_state retail_1500 reserve_1000)
         * lt reserve_1000
         / Batch.st_debt_usd (Batch.get_state retail_1500 reserve_1000)) /\
  (hf_ltb (Batch.st_hf (Batch.get_state retail_1500 reserve_1000)) 1.0 = true <->
   Batch.st_collateral_usd (Batch.get_state retail_1500 reserve_1000)
     * lt reserve_1000
     < Batch.st_debt_usd (Batch.get_state retail_1500 reserve_1000)).
Proof.
  apply (get_state_health retail_1500 reserve_1000). reflexivity.
Defined.

(** ** The two branches of a liquidation *)

Lemma pymax_pos (b : Q) : 0 < b -> pymax 0 b = b.
Proof.
  intros H. unfold pymax. apply Qltb_lt in H. rewrite H. reflexivity.
Qed.

(** The collateral to seize, times the price. *)
Lemma seize_value (r : ReserveConfig) (u : User) :
  ~ price r == 0 ->
  usdc_debt u * 0.5 * (1 + lb r) / price r * price r
    == usdc_debt u * 0.5 * (1 + lb r).
Proof. intros Hp. field. exact Hp. Qed.

(** X2.  At a positive price, a position with debt and health factor [h]
    is liquidated without error, and it is wiped out exactly when
    [h < LT * (1 + LB) / 2] (0.433125 with the reserve of the code);
    otherwise it keeps half of its debt. *)
Theorem wipe_out_threshold (r : ReserveConfig) (u : User) (h : Q) :
  0 < price r -> 0 < lt r -> 0 < 1 + lb r -> 0 < usdc_debt u ->
  App.calculate_hf u r = Fin h ->
  exists u' x,
    App.liquidate r u = Ok (u', x) /\
    (usdc_debt u' == 0 <-> h < lt r * (1 + lb r) * 0.5) /\
    (~ usdc_debt u' == 0 -> usdc_debt u' == usdc_debt u * 0.5).
Proof.
  intros Hp Hlt Hb Hd Hh.
  assert (Hp0 : ~ price r == 0) by lra.
  assert (Hb0 : ~ 1 + lb r == 0) by lra.
  apply calculate_hf_fin_inv in Hh as [Hd0 ->].
  pose proof (seize_value r u Hp0) as Es.
  set (seize := usdc_debt u * 0.5 * (1 + lb r) / price r) in *.
  assert (Eh : eth_collateral u * price r * lt r / usdc_debt u * usdc_debt u
               == eth_collateral u * price r * lt r) by (field; exact Hd0).
  set (h := eth_collateral u * price r * lt r / usdc_debt u) in *.
  assert (Hiff : eth_collateral u < seize <-> h < lt r * (1 + lb r) * 0.5).
  { clearbody seize h. split; intros H.
    - assert (H1 : eth_collateral u * price r < seize * price r)
        by (apply Qmult_lt_r; assumption).
      assert (H2 : eth_collateral u * price r * lt r
                   < usdc_debt u * 0.5 * (1 + lb r) * lt r)
        by (apply Qmult_lt_r; [assumption | lra]).
      assert (H3 : h * usdc_debt u
                   < lt r * (1 + lb r) * 0.5 * usdc_debt u) by lra.
      apply Qmult_lt_r in H3; assumption.
    - assert (H3 : h * usdc_debt u
                   < lt r * (1 + lb r) * 0.5 * usdc_debt u)
        by (apply Qmult_lt_r; assumption).
      assert (Es' : seize * price r * lt r
                    == usdc_debt u * 0.5 * (1 + lb r) * lt r)
        by (rewrite Es; reflexivity).
      assert (H2 : eth_collateral u * price r * lt r
                   < seize * price r * lt r) by lra.
      apply Qmult_lt_r in H2; [|assumption].
      apply Qmult_lt_r in H2; assumption. }
  destruct (Qlt_le_dec (eth_collateral u) seize) as [Hw|Hpart].
  - do 2 eexists. split; [apply liquidate_wipe_out; assumption|].
    cbn [usdc_debt]. split.
    + split; [intros _; apply Hiff, Hw | reflexivity].
    + intros H. exfalso. apply H. reflexivity.
  - do 2 eexists. split; [apply liquidate_partial; assumption|].
    cbn [usdc_debt]. split.
    + split; intros H.
      * exfalso. lra.
      * apply Hiff in H. lra.
    + intros _. ring.
Qed.

(** The theorem at [retail_1500] and a price of $1000 (health factor
    0.55, a partial liquidation). *)
Lemma wipe_out_threshold_witness :
  exists u' x,
    App.liquidate reserve_1000 retail_1500 = Ok (u', x) /\
    (usdc_debt u' == 0 <->
     1 * 1000 * 0.825 / 1500 < lt reserve_1000 * (1 + lb reserve_1000) * 0.5) /\
    (~ usdc_debt u' == 0 -> usdc_debt u' == usdc_debt retail_1500 * 0.5).
Proof.
  apply (wipe_out_threshold reserve_1000 retail_1500 (1 * 1000 * 0.825 / 1500));
    reflexivity.
Defined.

(** X3.  At a positive price, a wipe-out records a bad debt strictly
    above half of the debt of the position, and at most the whole debt. *)
Theorem wipe_out_bad_debt (r : ReserveConfig) (u : User) :
  0 < price r -> 0 < 1 + lb r -> 0 <= eth_collateral u ->
  eth_collateral u < usdc_debt u * 0.5 * (1 + lb r) / price r ->
  exists u',
    App.liquidate r u = Ok (u', eth_collateral u) /\
    usdc_debt u * 0.5 < bad_debt u' /\ bad_debt u' <= usdc_debt u.
Proof.
  intros Hp Hb Hc Hw.
  assert (Hp0 : ~ price r == 0) by lra.
  assert (Hb0 : ~ 1 + lb r == 0) by lra.
  eexists. split; [apply liquidate_wipe_out; assumption|]. cbn [bad_debt].
  pose proof (seize_value r u Hp0) as Es.
  set (seize := usdc_debt u * 0.5 * (1 + lb r) / price r) in *.
  assert (Ew : eth_collateral u * price r / (1 + lb r) * (1 + lb r)
               == eth_collateral u * price r) by (field; exact Hb0).
  set (w := eth_collateral u * price r / (1 + lb r)) in *.
  clearbody seize w.
  assert (H1 : eth_collateral u * price r < seize * price r)
    by (apply Qmult_lt_r; assumption).
  assert (H2 : w * (1 + lb r) < usdc_debt u * 0.5 * (1 + lb r)) by lra.
  apply Qmult_lt_r in H2; [|assumption].
  assert (H0 : 0 <= eth_collateral u * price r)
    by (apply Qmult_le_0_compat; lra).
  assert (Hw0 : 0 <= w).
  { destruct (Qlt_le_dec w 0) as [H|H]; [|exact H].
    assert (w * (1 + lb r) < 0 * (1 + lb r))
      by (apply Qmult_lt_r; assumption). lra. }
  rewrite pymax_pos by lra. lra.
Qed.

(** The theorem at [retail_1500] once the price is $500. *)
Lemma wipe_out_bad_debt_witness :
  exists u',
    App.liquidate reserve_500 retail_1500 = Ok (u', eth_collateral retail_1500) /\
    usdc_debt retail_1500 * 0.5 < bad_debt u' /\
    bad_debt u' <= usdc_debt retail_1500.
Proof.
  apply (wipe_out_bad_debt reserve_500 retail_1500).
  - reflexivity.
  - reflexivity.
  - vm_compute. discriminate.
  - reflexivity.
Defined.

(** X4.  At a positive price, the liquidation of a well-formed position
    never fails; it seizes between nothing and the whole collateral, worth
    at the price of the round at most the covered half of the debt times
    [1 + LB], with equality in a partial liquidation. *)
Theorem liquidation_payout (r : ReserveConfig) (u : User) :
  0 < price r -> 0 <= lb r ->
  0 <= eth_collateral u -> 0 <= usdc_debt u ->
  exists u' x,
    App.liquidate r u = Ok (u', x) /\
    0 <= x /\ x <= eth_collateral u /\
    eth_collateral u' == eth_collateral u - x /\
    x * price r <= usdc_debt u * 0.5 * (1 + lb r) /\
    (usdc_debt u' = 0 \/ x * price r == usdc_debt u * 0.5 * (1 + lb r)).
Proof.
  intros Hp Hb Hc Hd.
  assert (Hp0 : ~ price r == 0) by lra.
  assert (Hb0 : ~ 1 + lb r == 0) by lra.
  pose proof (seize_value r u Hp0) as Es.
  destruct (Qlt_le_dec (eth_collateral u)
              (usdc_debt u * 0.5 * (1 + lb r) / price r)) as [Hw|Hpart].
  - do 2 eexists. split; [apply liquidate_wipe_out; assumption|].
    cbn [eth_collateral usdc_debt].
    set (seize := usdc_debt u * 0.5 * (1 + lb r) / price r) in *.
    clearbody seize.
    assert (H1 : eth_collateral u * price r < seize * price r)
      by (apply Qmult_lt_r; assumption).
    repeat split; try lra; try (left; reflexivity).
  - do 2 eexists. split; [apply liquidate_partial; assumption|].
    cbn [eth_collateral usdc_debt].
    set (seize := usdc_debt u * 0.5 * (1 + lb r) / price r) in *.
    clearbody seize.
    assert (H0 : 0 <= usdc_debt u * 0.5 * (1 + lb r))
      by (apply Qmult_le_0_compat; lra).
    assert (Hs : 0 <= seize).
    { destruct (Qlt_le_dec seize 0) as [H|H]; [|exact H].
      assert (seize * price r < 0 * price r)
        by (apply Qmult_lt_r; assumption). lra. }
    repeat split; try lra; try (right; exact Es).
Qed.

(** The theorem at [retail_1500] and a price of $1000. *)
Lemma liquidation_payout_witness :
  exists u' x,
    App.liquidate reserve_1000 retail_1500 = Ok (u', x) /\
    0 <= x /\ x <= eth_collateral retail_1500 /\
    eth_collateral u' == eth_collateral retail_1500 - x /\
    x * price reserve_1000
      <= usdc_debt retail_1500 * 0.5 * (1 + lb reserve_1000) /\
    (usdc_debt u' = 0 \/
     x * price reserve_1000
       == usdc_debt retail_1500 * 0.5 * (1 + lb reserve_1000)).
Proof.
  apply (liquidation_payout reserve_1000 retail_1500).
  - reflexivity.
  - vm_compute. discriminate.
  - vm_compute. discriminate.
  - vm_compute. discriminate.
Defined.

(** ** The order of the liquidations *)

Lemma insert_desc_filter (key : nat -> Q) (k : Q) (i : nat) (l : list nat) :
  List.filter (fun j => Qeq_bool (key j) k) (insert_desc key i l) =
  List.filter (fun j => Qeq_bool (key j) k) (i :: l).
Proof.
  induction l as [|j l IH]; [reflexivity|]. cbn [insert_desc].
  destruct (Qltb (key i) (key j)) eqn:E; [|reflexivity].
  cbn [List.filter] in *. rewrite IH.
  destruct (Qeq_bool (key i) k) eqn:Ei; [|reflexivity].
  destruct (Qeq_bool (key j) k) eqn:Ej; [|reflexivity].
  apply Qltb_lt in E. apply Qeq_bool_iff in Ei, Ej. lra.
Qed.

(** X5.  The positions selected in a round are liquidated in descending
    order of debt: the processing order is a permutation of the selection,
    sorted by debt from the largest, and positions with equal debt keep
    the order they have in [self.users]. *)
Theorem liquidation_order (r : ReserveConfig) (us : list User) :
  let order := sort_desc (debt_at us) (App.select r us) in
  order ≡ₚ App.select r us /\
  Sorted (fun i j => debt_at us j <= debt_at us i) order /\
  forall d, List.filter (fun i => Qeq_bool (debt_at us i) d) order =
            List.filter (fun i => Qeq_bool (debt_at us i) d) (App.select r us).
Proof.
  cbn zeta. split; [apply sort_desc_perm|]. split; [apply sort_desc_sorted|].
  intros d. induction (App.select r us) as [|i l IH]; [reflexivity|].
  cbn [sort_desc foldr]. fold (sort_desc (debt_at us) l).
  rewrite insert_desc_filter. cbn [List.filter]. rewrite IH. reflexivity.
Qed.

(** ** Sums over the population *)

Lemma foldl_Qplus_acc (l : list Q) :
  forall a, foldl Qplus a l == a + foldl Qplus 0 l.
Proof.
  induction l as [|x l IH]; intros a; cbn [foldl]; [ring|].
  rewrite (IH (a + x)), (IH (0 + x)). ring.
Qed.

Lemma pysum_cons (x : Q) (l : list Q) : pysum (x :: l) == x + pysum l.
Proof.
  unfold pysum. cbn [foldl]. rewrite foldl_Qplus_acc. ring.
Qed.

Lemma pysum_insert {A : Type} (f : A -> Q) (l : list A) :
  forall i x y, l !! i = Some x ->
    pysum (f <$> <[i:=y]> l) == pysum (f <$> l) - f x + f y.
Proof.
  induction l as [|z l IH]; intros i x y Hi; [discriminate|].
  destruct i as [|i];
    cbn [fmap list_fmap insert list_insert lookup list_lookup] in Hi |- *.
  - injection Hi as ->. rewrite !pysum_cons. ring.
  - rewrite !pysum_cons, (IH i x y Hi). ring.
Qed.

Lemma pysum_scale {A : Type} (f : A -> Q) (p : Q) (l : list A) :
  pysum ((fun x => f x * p) <$> l) == pysum (f <$> l) * p.
Proof.
  induction l as [|z l IH]; cbn [fmap list_fmap]; [reflexivity|].
  rewrite !pysum_cons, IH. ring.
Qed.

Lemma pysum_nonneg (l : list Q) : Forall (fun x => 0 <= x) l -> 0 <= pysum l.
Proof.
  induction 1 as [|x l Hx Hl IH]; [cbn; lra|]. rewrite pysum_cons. lra.
Qed.

Lemma pysum_pos_iff (l : list Q) :
  Forall (fun x => 0 <= x) l -> (0 < pysum l <-> Exists (fun x => 0 < x) l).
Proof.
  induction 1 as [|x l Hx Hl IH].
  - split; [cbn; lra | intros H; inversion H].
  - rewrite pysum_cons, Exists_cons. pose proof (pysum_nonneg l Hl) as H0.
    split.
    + intros H. destruct (Qlt_le_dec 0 x) as [Hp|Hn]; [left; exact Hp|].
      right. apply IH. lra.
    + intros [H|H]; [lra|]. apply IH in H. lra.
Qed.

(** One liquidation moves collateral from the position to the seized
    volume, whatever the branch. *)
Lemma liquidate_conserves (r : ReserveConfig) (u u' : User) (x : Q) :
  App.liquidate r u = Ok (u', x) ->
  eth_collateral u == eth_collateral u' + x.
Proof.
  unfold App.liquidate.
  destruct (fdiv _ (price r)) as [seize| |]; try discriminate.
  cbn [mbind result_bind]. destruct (Qltb (eth_collateral u) seize).
  - destruct (fdiv _ _) as [paid| |]; try discriminate.
    intros [= <- <-]. cbn. ring.
  - intros [= <- <-]. cbn. ring.
Qed.

Lemma liquidate_all_conserves (r : ReserveConfig) (sel : list nat) :
  forall us vol us' vol',
    App.liquidate_all r sel us vol = Ok (us', vol') ->
    pysum (eth_collateral <$> us) + vol
      == pysum (eth_collateral <$> us') + vol'.
Proof.
  induction sel as [|i sel IH]; cbn [App.liquidate_all];
    intros us vol us' vol' H.
  - injection H as <- <-. reflexivity.
  - destruct (us !! i) as [u|] eqn:Ei; [|eauto].
    destruct (App.liquidate r u) as [[u1 x]| |] eqn:El; try discriminate.
    cbn [mbind result_bind] in H. apply IH in H. rewrite <- H.
    rewrite (pysum_insert eth_collateral us i u u1 Ei).
    rewrite (liquidate_conserves _ _ _ _ El). ring.
Qed.

(** X6.  A round conserves collateral: the collateral held by the
    positions before the round is the collateral they hold after it plus
    the volume seized, and the slippage fraction of the round is that
    volume, valued at the price of the start of the round, over the
    liquidity depth, times 0.01. *)
Theorem round_conserves_collateral (n : nat)
  (s s' : App.StressTestSimulation) (q : Q) :
  App.cascade_round n s = Ok (Some (s', q)) ->
  exists vol,
    pysum (eth_collateral <$> App.users s)
      == pysum (eth_collateral <$> App.users s') + vol /\
    q == vol * price (App.eth_reserve s)
         / App.market_liquidity_depth (App.config s) * 0.01.
Proof.
  intros H. apply cascade_round_inv in H as (us & vol & _ & Hl & _ & -> & ->).
  exists vol. cbn [App.users App._snapshot_state App.set_state].
  apply liquidate_all_conserves in Hl. split; [|reflexivity].
  rewrite <- Hl. ring.
Qed.

(** The theorem at the only round of [small_state]. *)
Lemma round_conserves_collateral_witness :
  exists vol,
    pysum (eth_collateral <$> App.users small_state)
      == pysum (eth_collateral <$> App.users (fst small_round)) + vol /\
    snd small_round
      == vol * price (App.eth_reserve small_state)
         / App.market_liquidity_depth (App.config small_state) * 0.01.
Proof.
  apply (round_conserves_collateral 1 small_state).
  vm_compute. reflexivity.
Defined.

(** ** What a round and the loop preserve *)

Lemma cascade_round_rel (Rel : User -> User -> Prop) (n : nat)
  (s s' : App.StressTestSimulation) (q : Q) :
  (forall u, Rel u u) ->
  (forall r u u' x, App.liquidate r u = Ok (u', x) -> Rel u u') ->
  App.cascade_round n s = Ok (Some (s', q)) ->
  Forall2 Rel (App.users s) (App.users s').
Proof.
  intros Hrefl Hstep H. apply cascade_round_lookup in H as [Hlen H].
  apply Forall2_same_length_lookup. split; [symmetry; exact Hlen|].
  intros i u u' Hu Hu'.
  destruct (H i u Hu) as [[_ E]|(_ & u1 & x & El & E)];
    rewrite E in Hu'; injection Hu' as <-; eauto.
Qed.

Lemma Forall2_rel_trans (Rel : User -> User -> Prop) (l l1 l2 : list User) :
  (forall u u1 u2, Rel u u1 -> Rel u1 u2 -> Rel u u2) ->
  Forall2 Rel l l1 -> Forall2 Rel l1 l2 -> Forall2 Rel l l2.
Proof.
  intros Htrans H1. revert l2.
  induction H1 as [|u u1 l l1 Hu Hl IH]; intros l2 H2.
  - inversion H2. constructor.
  - inversion H2; subst. constructor; eauto.
Qed.

Lemma cascade_rel (Rel : User -> User -> Prop) (fuel : nat) :
  (forall u, Rel u u) ->
  (forall u u1 u2, Rel u u1 -> Rel u1 u2 -> Rel u u2) ->
  (forall r u u' x, App.liquidate r u = Ok (u', x) -> Rel u u') ->
  forall n s s',
    App.cascade fuel n s = Ok s' ->
    Forall2 Rel (App.users s) (App.users s').
Proof.
  intros Hrefl Htrans Hstep.
  induction fuel as [|fuel IH]; cbn [App.cascade]; intros n s s' H;
    [discriminate|].
  destruct (App.cascade_round (S n) s) as [[[s1 q]|]| |] eqn:Er;
    try discriminate; cbn [mbind result_bind] in H.
  - pose proof (cascade_round_rel Rel _ _ _ _ Hrefl Hstep Er) as H1.
    destruct (Qltb q 0.0001).
    + injection H as <-. exact H1.
    + eapply Forall2_rel_trans; eauto.
  - injection H as <-. apply Forall2_same_length_lookup.
    split; [reflexivity|]. intros i u u' Hu Hu'.
    rewrite Hu in Hu'. injection Hu' as <-. apply Hrefl.
Qed.

Lemma liquidate_same_identity (r : ReserveConfig) (u u' : User) (x : Q) :
  App.liquidate r u = Ok (u', x) -> same_identity u u'.
Proof.
  unfold App.liquidate.
  destruct (fdiv _ (price r)) as [seize| |]; try discriminate.
  cbn [mbind result_bind]. destruct (Qltb (eth_collateral u) seize).
  - destruct (fdiv _ _) as [paid| |]; try discriminate.
    intros [= <- <-]. repeat split.
  - intros [= <- <-]. repeat split.
Qed.

Lemma liquidate_bad_debt_nonneg (r : ReserveConfig) (u u' : User) (x : Q) :
  App.liquidate r u = Ok (u', x) -> 0 <= bad_debt u -> 0 <= bad_debt u'.
Proof.
  unfold App.liquidate.
  destruct (fdiv _ (price r)) as [seize| |]; try discriminate.
  cbn [mbind result_bind]. destruct (Qltb (eth_collateral u) seize).
  - destruct (fdiv _ _) as [paid| |]; try discriminate.
    intros [= <- <-] _. apply pymax_ge_l.
  - intros [= <- <-] H. exact H.
Qed.

(** X7.  A round mutates exactly the positions whose health factor is
    below 1 at the price of the start of the round, each by one call of
    the liquidation at that price; every other position, and the number of
    positions, is unchanged. *)
Theorem round_touches_the_selection (n : nat)
  (s s' : App.StressTestSimulation) (q : Q) :
  App.cascade_round n s = Ok (Some (s', q)) ->
  length (App.users s') = length (App.users s) /\
  forall i u, App.users s !! i = Some u ->
    if App.liquidatable (App.eth_reserve s) u
    then exists u' x,
           App.liquidate (App.eth_reserve s) u = Ok (u', x) /\
           App.users s' !! i = Some u'
    else App.users s' !! i = Some u.
Proof.
  intros H. apply cascade_round_lookup in H as [Hlen H].
  split; [exact Hlen|]. intros i u Hu.
  destruct (H i u Hu) as [[-> E]|(-> & E)]; exact E.
Qed.

(** The theorem at the only round of [small_state]. *)
Lemma round_touches_the_selection_witness :
  length (App.users (fst small_round)) = length (App.users small_state) /\
  forall i u, App.users small_state !! i = Some u ->
    if App.liquidatable (App.eth_reserve small_state) u
    then exists u' x,
           App.liquidate (App.eth_reserve small_state) u = Ok (u', x) /\
           App.users (fst small_round) !! i = Some u'
    else App.users (fst small_round) !! i = Some u.
Proof.
  apply (round_touches_the_selection 1 small_state (fst small_round)
           (snd small_round)).
  vm_compute. reflexivity.
Defined.

(** ** The history of a run *)

Lemma cascade_stages (fuel : nat) :
  forall n s s',
    App.cascade fuel n s = Ok s' ->
    exists k, (k <= fuel)%nat /\
      stage <$> App.history s' =
      (stage <$> App.history s) ++ (round_label <$> seq (S n) k).
Proof.
  induction fuel as [|fuel IH]; cbn [App.cascade]; intros n s s' H;
    [discriminate|].
  destruct (App.cascade_round (S n) s) as [[[s1 q]|]| |] eqn:Er;
    try discriminate; cbn [mbind result_bind] in H.
  - apply cascade_round_fields in Er as (_ & _ & _ & _ & h & Eh & Est & _).
    destruct (Qltb q 0.0001).
    + injection H as <-. exists 1%nat. split; [lia|].
      rewrite Eh, fmap_app. cbn. rewrite Est. reflexivity.
    + apply IH in H as (k & Hk & E). exists (S k). split; [lia|].
      rewrite E, Eh, fmap_app, <- app_assoc. cbn. rewrite Est. reflexivity.
  - injection H as <-. exists 0%nat. split; [lia|].
    cbn. rewrite app_nil_r. reflexivity.
Qed.

(** The selection and the count of a snapshot agree. *)
Lemma length_select (r : ReserveConfig) (us : list User) :
  length (App.select r us) = length (List.filter (App.liquidatable r) us).
Proof.
  unfold App.select.
  assert (H : forall (l : list User) (g : nat -> option User) (k : nat),
            (forall j, g (k + j)%nat = l !! j) ->
            length (List.filter
                      (fun i => match g i with
                                | Some u => App.liquidatable r u
                                | None => false
                                end) (seq k (length l)))
            = length (List.filter (App.liquidatable r) l)).
  { induction l as [|u l IH]; intros g k Hg; [reflexivity|].
    cbn [length seq List.filter].
    pose proof (Hg 0%nat) as H0. rewrite Nat.add_0_r in H0. cbn in H0.
    rewrite H0.
    assert (IH' : length (List.filter
                      (fun i => match g i with
                                | Some u => App.liquidatable r u
                                | None => false
                                end) (seq (S k) (length l)))
                  = length (List.filter (App.liquidatable r) l)).
    { apply IH. intros j.
      transitivity (g (k + S j)%nat); [f_equal; lia | apply (Hg (S j))]. }
    destruct (App.liquidatable r u); cbn [length]; rewrite IH'; reflexivity. }
  apply (H us (fun i => us !! i) 0%nat). intros j. reflexivity.
Qed.

Lemma cascade_result_is_snapshot (fuel : nat) :
  forall n s s',
    App.cascade fuel n s = Ok s' ->
    s' = s \/ exists s1 st, s' = App._snapshot_state s1 st.
Proof.
  induction fuel as [|fuel IH]; cbn [App.cascade]; intros n s s' H;
    [discriminate|].
  destruct (App.cascade_round (S n) s) as [[[s1 q]|]| |] eqn:Er;
    try discriminate; cbn [mbind result_bind] in H.
  - apply cascade_round_inv in Er as (us & vol & _ & _ & _ & _ & Es1).
    destruct (Qltb q 0.0001).
    + injection H as <-. right. eauto.
    + apply IH in H as [->|H]; [right; eauto | right; exact H].
  - injection H as <-. left. reflexivity.
Qed.

Lemma snapshot_reports (s1 : App.StressTestSimulation) (st : string) :
  let s := App._snapshot_state s1 st in
  exists h,
    last (App.history s) = Some h /\
    stage h = st /\
    eth_price h = price (App.eth_reserve s) /\
    total_bad_debt h = pysum (bad_debt <$> App.users s) /\
    liquidatable_users h
      = length (App.select (App.eth_reserve s) (App.users s)) /\
    total_collateral_usd h
      == price (App.eth_reserve s) * pysum (eth_collateral <$> App.users s).
Proof.
  cbn zeta. eexists. unfold App._snapshot_state.
  cbn [App.history App.users App.eth_reserve].
  split; [apply last_snoc|]. cbn [stage eth_price total_bad_debt
    liquidatable_users total_collateral_usd].
  do 3 (split; [reflexivity|]). split; [symmetry; apply length_select|].
  rewrite (pysum_scale eth_collateral). ring.
Qed.

Lemma cascade_stop (fuel : nat) :
  forall n s s',
    App.cascade fuel n s = Ok s' ->
    (s' = s \/ exists s1 st, s' = App._snapshot_state s1 st) /\
    (App.select (App.eth_reserve s') (App.users s') = [] \/
     exists m s1 q,
       App.cascade_round m s1 = Ok (Some (s', q)) /\ q < 0.0001).
Proof.
  intros n s s' H. split; [eapply cascade_result_is_snapshot, H|].
  revert n s s' H.
  induction fuel as [|fuel IH]; cbn [App.cascade]; intros n s s' H;
    [discriminate|].
  destruct (App.cascade_round (S n) s) as [[[s1 q]|]| |] eqn:Er;
    try discriminate; cbn [mbind result_bind] in H.
  - destruct (Qltb q 0.0001) eqn:Eq.
    + injection H as <-. right. apply Qltb_lt in Eq. eauto.
    + eapply IH, H.
  - injection H as <-. left. apply cascade_round_none in Er. exact Er.
Qed.

Section RunHistory.
Context {R : RandomSource}.

(** The loop of [generate_users] only appends fresh positions, whatever
    the generator draws. *)
Lemma generate_loop_new (c : App.SimulationConfig) (r : ReserveConfig)
  (idx : list Z) :
  forall us g us' g',
    App.generate_loop c r idx us g = Ok (us', g') ->
    exists new,
      us' = us ++ new /\
      Forall2 (fun i u => exists e d, u = new_user i e d) idx new.
Proof.
  induction idx as [|i idx IH]; cbn [App.generate_loop];
    intros us g us' g' H.
  - injection H as <- _. exists []. rewrite app_nil_r.
    split; [reflexivity | constructor].
  - destruct (App.generate_user c r i g) as [[u g1]| |] eqn:Eu;
      try discriminate.
    cbn [mbind result_bind] in H.
    apply IH in H as (new & -> & Hall). exists (u :: new).
    rewrite <- app_assoc. split; [reflexivity|]. constructor; [|exact Hall].
    unfold App.generate_user in Eu.
    destruct (App.draw_position c i g) as [[e t] g2].
    destruct (fdiv _ t) as [d| |]; try discriminate.
    injection Eu as <- _. eauto.
Qed.

Lemma generate_users_new (c : App.SimulationConfig) (g g' : rng_state)
  (s : App.StressTestSimulation) :
  App.generate_users (App.new c) g = Ok (s, g') ->
  App.config s = c /\
  App.eth_reserve s = App.eth_reserve (App.new c) /\
  App.history s = [] /\
  length (App.users s) = Z.to_nat (App.num_users c) /\
  forall (i : nat) u, App.users s !! i = Some u ->
    exists e d, u = new_user (Z.of_nat i) e d.
Proof.
  unfold App.generate_users. intros H.
  destruct (App.generate_loop _ _ _ _ _) as [[us g1]| |] eqn:El;
    try discriminate.
  injection H as <- _. cbn [App.config App.eth_reserve App.history App.users].
  do 3 (split; [reflexivity|]).
  apply generate_loop_new in El as (new & -> & Hall).
  cbn [App.new App.config App.users app] in *. split.
  - rewrite <- (Forall2_length _ _ _ Hall). unfold range.
    rewrite length_fmap, length_seq. reflexivity.
  - intros i u Hu.
    destruct (Forall2_lookup_r _ _ _ _ _ Hall Hu) as (z & Hz & Hd).
    unfold range in Hz. rewrite list_lookup_fmap in Hz.
    destruct (seq 0 (Z.to_nat (App.num_users c)) !! i) as [k|] eqn:Ek;
      [|discriminate Hz].
    apply lookup_seq in Ek as [-> _]. cbn in Hz. injection Hz as <-.
    exact Hd.
Qed.

(** A run, taken apart. *)
Lemma run_inv (fuel : nat) (c : App.SimulationConfig) (g g' : rng_state)
  (s : App.StressTestSimulation) :
  App.run fuel (App.new c) g = Ok (s, g') ->
  exists s0,
    App.generate_users (App.new c) g = Ok (s0, g') /\
    App.cascade fuel 0 (App.shock s0) = Ok s.
Proof.
  unfold App.run. intros H.
  destruct (App.generate_users (App.new c) g) as [[s0 g0]| |];
    try discriminate.
  cbn [mbind result_bind] in H.
  destruct (App.cascade fuel 0 (App.shock s0)) as [s1| |] eqn:Ec;
    try discriminate.
  injection H as -> ->. exists s0. split; [reflexivity | exact Ec].
Qed.

(** X8.  The history of a finished run is the snapshot "Post-Shock"
    followed by the snapshots "Round 1", "Round 2", ... of the rounds that
    liquidated something, in order and without a gap. *)
Theorem run_history_shape (fuel : nat) (c : App.SimulationConfig)
  (g g' : rng_state) (s : App.StressTestSimulation) :
  App.run fuel (App.new c) g = Ok (s, g') ->
  exists k, (k <= fuel)%nat /\
    stage <$> App.history s = "Post-Shock" :: (round_label <$> seq 1 k).
Proof.
  intros H. apply run_inv in H as (s0 & Hg & Hc).
  apply generate_users_new in Hg as (_ & _ & Hh & _).
  apply cascade_stages in Hc as (k & Hk & E). exists k.
  split; [exact Hk|]. rewrite E. cbn. rewrite Hh. reflexivity.
Qed.

(** X9.  The last snapshot of a finished run describes the final state:
    its price is the final price of the reserve, its bad debt the sum of
    the bad debts of the positions, its count the number of positions
    liquidatable at the final price, and its collateral value the final
    price times the collateral left. *)
Theorem final_snapshot_reports_state (fuel : nat) (c : App.SimulationConfig)
  (g g' : rng_state) (s : App.StressTestSimulation) :
  App.run fuel (App.new c) g = Ok (s, g') ->
  exists h,
    last (App.history s) = Some h /\
    eth_price h = price (App.eth_reserve s) /\
    total_bad_debt h = pysum (bad_debt <$> App.users s) /\
    liquidatable_users h
      = length (App.select (App.eth_reserve s) (App.users s)) /\
    total_collateral_usd h
      == price (App.eth_reserve s) * pysum (eth_collateral <$> App.users s).
Proof.
  intros H. apply run_inv in H as (s0 & _ & Hc).
  apply cascade_result_is_snapshot in Hc.
  assert (Hs : exists s1 st, s = App._snapshot_state s1 st).
  { destruct Hc as [->|Hc]; [|exact Hc]. unfold App.shock. eauto. }
  destruct Hs as (s1 & st & ->).
  destruct (snapshot_reports s1 st) as (h & Hl & _ & H1 & H2 & H3 & H4).
  exists h. repeat split; assumption.
Qed.

(** X10.  A finished run stopped for one of two reasons: no position is
    liquidatable at the final price, and then the last snapshot counts
    zero liquidatable users; or the slippage fraction of the last round
    was below 0.0001. *)
Theorem run_stop_reason (fuel : nat) (c : App.SimulationConfig)
  (g g' : rng_state) (s : App.StressTestSimulation) :
  App.run fuel (App.new c) g = Ok (s, g') ->
  (App.select (App.eth_reserve s) (App.users s) = [] /\
   exists h, last (App.history s) = Some h /\ liquidatable_users h = 0%nat) \/
  (exists m s1 q,
     App.cascade_round m s1 = Ok (Some (s, q)) /\ q < 0.0001).
Proof.
  intros H. apply run_inv in H as (s0 & _ & Hc).
  apply cascade_stop in Hc as [Hsnap [Hsel|Hq]]; [left | right; exact Hq].
  split; [exact Hsel|].
  assert (Hs : exists s1 st, s = App._snapshot_state s1 st).
  { destruct Hsnap as [->|Hc]; [|exact Hc]. unfold App.shock. eauto. }
  destruct Hs as (s1 & st & ->).
  destruct (snapshot_reports s1 st) as (h & Hl & _ & _ & _ & H3 & _).
  exists h. split; [exact Hl|]. rewrite H3, Hsel. reflexivity.
Qed.

End RunHistory.

(** The theorem for the run [three_run]. *)
Lemma run_history_shape_witness :
  exists k, (k <= 5)%nat /\
    stage <$> App.history (fst three_run)
      = "Post-Shock" :: (round_label <$> seq 1 k).
Proof.
  apply (run_history_shape (R := cyclic_source) 5 three_users 0%Z (snd three_run) (fst three_run)).
  vm_compute. reflexivity.
Defined.

(** The theorem for the run [three_run]. *)
Lemma final_snapshot_reports_state_witness :
  exists h,
    last (App.history (fst three_run)) = Some h /\
    eth_price h = price (App.eth_reserve (fst three_run)) /\
    total_bad_debt h = pysum (bad_debt <$> App.users (fst three_run)) /\
    liquidatable_users h
      = length (App.select (App.eth_reserve (fst three_run))
                  (App.users (fst three_run))) /\
    total_collateral_usd h
      == price (App.eth_reserve (fst three_run))
         * pysum (eth_collateral <$> App.users (fst three_run)).
Proof.
  apply (final_snapshot_reports_state (R := cyclic_source) 5 three_users 0%Z (snd three_run)).
  vm_compute. reflexivity.
Defined.

(** The theorem for the run [three_run]. *)
Lemma run_stop_reason_witness :
  (App.select (App.eth_reserve (fst three_run)) (App.users (fst three_run)) = [] /\
   exists h, last (App.history (fst three_run)) = Some h /\
             liquidatable_users h = 0%nat) \/
  (exists m s1 q,
     App.cascade_round m s1 = Ok (Some (fst three_run, q)) /\ q < 0.0001).
Proof.
  apply (run_stop_reason (R := cyclic_source) 5 three_users 0%Z (snd three_run)).
  vm_compute. reflexivity.
Defined.

(** ** Bad debt and the risk status *)

Lemma Forall2_Forall_r (P Q' : User -> Prop) (Rel : User -> User -> Prop)
  (l l' : list User) :
  (forall u u', Rel u u' -> P u -> Q' u') ->
  Forall2 Rel l l' -> Forall P l -> Forall Q' l'.
Proof.
  intros Himp H. induction H as [|u u' l l' Hu Hl IH]; intros HP;
    [constructor|].
  inversion HP; subst. constructor; eauto.
Qed.

(** The loop never makes a bad debt negative. *)
Lemma cascade_bad_debt_nonneg (fuel n : nat) (s s' : App.StressTestSimulation) :
  App.cascade fuel n s = Ok s' ->
  Forall (fun u => 0 <= bad_debt u) (App.users s) ->
  Forall (fun u => 0 <= bad_debt u) (App.users s').
Proof.
  intros H. apply (Forall2_Forall_r _ _
    (fun u u' => 0 <= bad_debt u -> 0 <= bad_debt u')); [auto|].
  apply (cascade_rel _ fuel) with (n := n); auto.
  intros r u u' x Hl. eapply liquidate_bad_debt_nonneg, Hl.
Qed.

Lemma risk_status_of_positions (us : list User) :
  Forall (fun u => 0 <= bad_debt u) us ->
  Qltb 0 (pysum (bad_debt <$> us)) = true <->
  Exists (fun u => 0 < bad_debt u) us.
Proof.
  intros H. rewrite Qltb_lt, pysum_pos_iff.
  - rewrite Exists_fmap. reflexivity.
  - apply Forall_fmap. exact H.
Qed.

Section RunStatus.
Context {R : RandomSource}.

(** X11.  After a finished run the key metrics exist (the history is not
    empty); they show the final price of the reserve and the number of
    positions liquidatable at it, and the risk status is "CRITICAL"
    exactly when some position carries a positive bad debt, "STABLE"
    otherwise. *)
Theorem key_metrics_of_run (fuel : nat) (c : App.SimulationConfig)
  (g g' : rng_state) (s : App.StressTestSimulation) :
  App.run fuel (App.new c) g = Ok (s, g') ->
  exists p b k status,
    App.key_metrics (App.history s) = Some (p, b, k, status) /\
    p = price (App.eth_reserve s) /\
    b = pysum (bad_debt <$> App.users s) /\
    k = length (App.select (App.eth_reserve s) (App.users s)) /\
    (status = "CRITICAL" <-> Exists (fun u => 0 < bad_debt u) (App.users s)) /\
    (status = "STABLE" <-> Forall (fun u => bad_debt u == 0) (App.users s)).
Proof.
  intros H. apply run_inv in H as (s0 & Hg & Hc).
  apply generate_users_new in Hg as (_ & _ & _ & _ & Hnew).
  assert (H0 : Forall (fun u => 0 <= bad_debt u) (App.users (App.shock s0))).
  { apply Forall_lookup. intros i u Hu.
    destruct (Hnew i u Hu) as (e & d & ->). cbn. discriminate. }
  pose proof (cascade_bad_debt_nonneg _ _ _ _ Hc H0) as Hb.
  apply cascade_result_is_snapshot in Hc.
  assert (Hs : exists s1 st, s = App._snapshot_state s1 st).
  { destruct Hc as [->|Hc]; [|exact Hc]. unfold App.shock. eauto. }
  destruct Hs as (s1 & st & ->).
  destruct (snapshot_reports s1 st) as (h & Hl & _ & H1 & H2 & H3 & _).
  unfold App.key_metrics. rewrite Hl. do 4 eexists.
  split; [reflexivity|]. do 3 (split; [assumption|]).
  rewrite H2.
  pose proof (risk_status_of_positions _ Hb) as Hrisk.
  destruct (Qltb 0 (pysum (bad_debt <$> _))) eqn:E.
  - split.
    + split; [intros _; apply Hrisk; reflexivity | reflexivity].
    + split; [discriminate|]. intros Hall. exfalso.
      apply proj1 in Hrisk. specialize (Hrisk eq_refl).
      apply Exists_exists in Hrisk as (u & Hu & Hpos).
      pose proof (proj1 (Forall_forall _ _) Hall u Hu) as Hz.
      cbn beta in Hz. lra.
  - split.
    + split; [discriminate|]. intros Hex. apply Hrisk in Hex. discriminate.
    + split; [|reflexivity]. intros _. apply Forall_forall. intros u Hu.
      pose proof (proj1 (Forall_forall _ _) Hb u Hu) as Hge.
      cbn beta in Hge.
      destruct (Qlt_le_dec 0 (bad_debt u)) as [Hpos|Hle]; [|lra].
      exfalso. assert (Hex : Exists (fun u => 0 < bad_debt u)
                               (App.users (App._snapshot_state s1 st))).
      { apply Exists_exists. eauto. }
      apply Hrisk in Hex. discriminate.
Qed.

(** X12.  A run never changes what identifies a position: after the run
    there are still [max(0, num_users)] positions, the one at index [i]
    has [uid] [i], its flag [is_liquidated] is still [False], and
    [initial_eth] and [initial_debt] are the collateral and the debt it
    was generated with. *)
Theorem run_keeps_identity (fuel : nat) (c : App.SimulationConfig)
  (g g' : rng_state) (s : App.StressTestSimulation) :
  App.run fuel (App.new c) g = Ok (s, g') ->
  exists s0,
    App.generate_users (App.new c) g = Ok (s0, g') /\
    length (App.users s) = Z.to_nat (App.num_users c) /\
    forall (i : nat) u, App.users s !! i = Some u ->
      uid u = Z.of_nat i /\ is_liquidated u = false /\
      exists u0, App.users s0 !! i = Some u0 /\
                 initial_eth u = eth_collateral u0 /\
                 initial_debt u = usdc_debt u0.
Proof.
  intros H. apply run_inv in H as (s0 & Hg & Hc). exists s0.
  split; [exact Hg|].
  apply generate_users_new in Hg as (_ & _ & _ & Hlen & Hnew).
  assert (Hrel : Forall2 same_identity (App.users s0) (App.users s)).
  { change (App.users s0) with (App.users (App.shock s0)).
    apply (cascade_rel same_identity fuel) with (n := 0%nat); [| | |exact Hc].
    - intros u. repeat split.
    - intros u u1 u2 (H1 & H2 & H3 & H4) (H5 & H6 & H7 & H8).
      repeat split; congruence.
    - intros r u u' x. apply liquidate_same_identity. }
  split; [rewrite <- (Forall2_length _ _ _ Hrel); exact Hlen|].
  intros i u Hu.
  destruct (Forall2_lookup_r _ _ _ _ _ Hrel Hu) as (u0 & Hu0 & Hid).
  destruct Hid as (H1 & H2 & H3 & H4).
  destruct (Hnew i u0 Hu0) as (e & d & E). subst u0.
  cbn [uid initial_eth initial_debt is_liquidated new_user] in H1, H2, H3, H4.
  split; [exact H1|]. split; [exact H4|]. eexists. split; [exact Hu0|].
  cbn [eth_collateral usdc_debt new_user]. split; assumption.
Qed.

End RunStatus.

(** The theorem for the run [three_run]. *)
Lemma key_metrics_of_run_witness :
  exists p b k status,
    App.key_metrics (App.history (fst three_run)) = Some (p, b, k, status) /\
    p = price (App.eth_reserve (fst three_run)) /\
    b = pysum (bad_debt <$> App.users (fst three_run)) /\
    k = length (App.select (App.eth_reserve (fst three_run))
                  (App.users (fst three_run))) /\
    (status = "CRITICAL" <->
     Exists (fun u => 0 < bad_debt u) (App.users (fst three_run))) /\
    (status = "STABLE" <->
     Forall (fun u => bad_debt u == 0) (App.users (fst three_run))).
Proof.
  apply (key_metrics_of_run (R := cyclic_source) 5 three_users 0%Z
           (snd three_run)).
  vm_compute. reflexivity.
Defined.

(** The theorem for the run [three_run]. *)
Lemma run_keeps_identity_witness :
  exists s0,
    App.generate_users (App.new three_users) 0%Z = Ok (s0, snd three_run) /\
    length (App.users (fst three_run))
      = Z.to_nat (App.num_users three_users) /\
    forall (i : nat) u, App.users (fst three_run) !! i = Some u ->
      uid u = Z.of_nat i /\ is_liquidated u = false /\
      exists u0, App.users s0 !! i = Some u0 /\
                 initial_eth u = eth_collateral u0 /\
                 initial_debt u = usdc_debt u0.
Proof.
  apply (run_keeps_identity (R := cyclic_source) 5 three_users 0%Z
           (snd three_run)).
  vm_compute. reflexivity.
Defined.

(** ** The market impact of a round *)

Lemma liquidate_all_volume (r : ReserveConfig) (sel : list nat) :
  0 < price r -> 0 <= lb r ->
  forall us vol us' vol',
    Forall position_ok us ->
    App.liquidate_all r sel us vol = Ok (us', vol') ->
    vol <= vol' /\ Forall position_ok us'.
Proof.
  intros Hp Hb.
  induction sel as [|i sel IH]; cbn [App.liquidate_all];
    intros us vol us' vol' Hok H.
  - injection H as <- <-. split; [lra | exact Hok].
  - destruct (us !! i) as [u|] eqn:Ei; [|eauto].
    destruct (App.liquidate r u) as [[u1 x]| |] eqn:El; try discriminate.
    cbn [mbind result_bind] in H.
    pose proof (proj1 (Forall_lookup _ _) Hok i u Ei) as Hu.
    destruct (liquidate_shrinks _ _ _ _ Hp Hb Hu El) as [Hu1 (Hc & _)].
    pose proof (liquidate_conserves _ _ _ _ El) as Hx.
    apply IH in H as [Hv Hok'].
    + split; [lra | exact Hok'].
    + apply Forall_insert; assumption.
Qed.

(** X13.  In a market with a positive depth, a round that starts at a
    positive price over well-formed positions seizes a non-negative
    volume: its slippage fraction is not negative and the price does not
    rise. *)
Theorem round_price_falls (n : nat) (s s' : App.StressTestSimulation) (q : Q) :
  App.cascade_round n s = Ok (Some (s', q)) ->
  0 < price (App.eth_reserve s) -> 0 <= lb (App.eth_reserve s) ->
  0 < App.market_liquidity_depth (App.config s) ->
  Forall position_ok (App.users s) ->
  0 <= q /\ price (App.eth_reserve s') <= price (App.eth_reserve s).
Proof.
  intros H Hp Hb Hd Hok.
  pose proof (cascade_round_fields _ _ _ _ H) as (_ & _ & _ & Ep & _).
  apply cascade_round_inv in H as (us & vol & _ & Hl & _ & Eq & _).
  apply (liquidate_all_volume _ _ Hp Hb) in Hl as [Hv _]; [|exact Hok].
  assert (Hq : 0 <= q).
  { rewrite Eq.
    assert (H0 : 0 <= vol * price (App.eth_reserve s))
      by (apply Qmult_le_0_compat; lra).
    assert (H1 : 0 <= vol * price (App.eth_reserve s)
                      / App.market_liquidity_depth (App.config s))
      by (apply Qle_shift_div_l; [exact Hd | lra]).
    apply Qmult_le_0_compat; [exact H1 | discriminate]. }
  split; [exact Hq|]. rewrite Ep.
  assert (0 <= price (App.eth_reserve s) * q)
    by (apply Qmult_le_0_compat; lra).
  lra.
Qed.

(** The theorem at the only round of [small_state]. *)
Lemma round_price_falls_witness :
  0 <= snd small_round /\
  price (App.eth_reserve (fst small_round))
    <= price (App.eth_reserve small_state).
Proof.
  apply (round_price_falls 1 small_state).
  - vm_compute. reflexivity.
  - reflexivity.
  - vm_compute. discriminate.
  - reflexivity.
  - constructor; [|constructor]. vm_compute.
    do 3 (split; [discriminate|]). right. reflexivity.
Defined.

(** ** Errors of a round *)

Lemma liquidate_all_returns_or_raises (r : ReserveConfig) (sel : list nat) :
  forall us vol, App.liquidate_all r sel us vol <> OutOfFuel.
Proof.
  induction sel as [|i sel IH]; cbn [App.liquidate_all]; intros us vol;
    [discriminate|].
  destruct (us !! i) as [u|]; [|apply IH].
  unfold App.liquidate.
  destruct (fdiv _ (price r)) as [seize| |] eqn:E1; cbn [mbind result_bind].
  - destruct (Qltb (eth_collateral u) seize).
    + destruct (fdiv _ (1 + lb r)) as [paid| |] eqn:E2;
        cbn [mbind result_bind mret result_ret].
      * apply IH.
      * discriminate.
      * unfold fdiv in E2. destruct (Qeq_bool _ _); discriminate.
    + cbn [mbind result_bind mret result_ret]. apply IH.
  - discriminate.
  - unfold fdiv in E1. destruct (Qeq_bool _ _); discriminate.
Qed.

(** X14.  With a liquidity depth of zero, a round in which some position
    is liquidatable raises [ZeroDivisionError], and so does the loop. *)
Theorem zero_depth_raises (s : App.StressTestSimulation) (fuel n : nat) :
  App.market_liquidity_depth (App.config s) == 0 ->
  App.select (App.eth_reserve s) (App.users s) <> [] ->
  App.cascade_round n s = Raise ZeroDivisionError /\
  App.cascade (S fuel) n s = Raise ZeroDivisionError.
Proof.
  intros Hd Hsel.
  assert (Hr : forall m, App.cascade_round m s = Raise ZeroDivisionError).
  { intros m. unfold App.cascade_round.
    destruct (App.select _ _) as [|i sel] eqn:E; [congruence|].
    destruct (App.liquidate_all _ _ _ _) as [[us vol]|e|] eqn:El;
      cbn [mbind result_bind].
    - rewrite (fdiv_zero _ _ Hd). reflexivity.
    - destruct e. reflexivity.
    - exfalso. eapply liquidate_all_returns_or_raises, El. }
  split; [apply Hr|]. cbn [App.cascade]. rewrite Hr. reflexivity.
Qed.

(** The theorem at [small_state_no_depth]. *)
Lemma zero_depth_raises_witness :
  App.cascade_round 0 small_state_no_depth = Raise ZeroDivisionError /\
  App.cascade 1 0 small_state_no_depth = Raise ZeroDivisionError.
Proof.
  apply (zero_depth_raises small_state_no_depth 0 0).
  - reflexivity.
  - vm_compute. discriminate.
Defined.

Lemma zero_price_raises (n : nat) (s : App.StressTestSimulation) :
  price (App.eth_reserve s) == 0 ->
  App.select (App.eth_reserve s) (App.users s) <> [] ->
  App.cascade_round n s = Raise ZeroDivisionError.
Proof.
  intros Hp Hsel. unfold App.cascade_round.
  destruct (App.select _ _) as [|i0 sel0] eqn:E; [congruence|].
  rewrite <- E.
  destruct (sort_desc (debt_at (App.users s))
              (App.select (App.eth_reserve s) (App.users s)))
    as [|i sel] eqn:Es.
  - exfalso. pose proof (sort_desc_perm (debt_at (App.users s))
                           (App.select (App.eth_reserve s) (App.users s)))
      as Hperm.
    rewrite Es, E in Hperm. apply Permutation_nil_cons in Hperm. exact Hperm.
  - assert (Hi : i ∈ App.select (App.eth_reserve s) (App.users s)).
    { rewrite <- (sort_desc_perm (debt_at (App.users s))), Es.
      apply list_elem_of_here. }
    apply elem_of_select in Hi as (u & Hu & _).
    cbn [App.liquidate_all]. rewrite Hu, (liquidate_zero_price _ _ Hp).
    reflexivity.
Qed.

Section Crash.
Context {R : RandomSource} {L : RandomSourceLaws R}.

(** X15.  A price drop of 100% takes the price to zero: in a population of
    at least one user generated at a start price other than zero, every
    position is then liquidatable and the first liquidation divides by the
    price, so the run raises [ZeroDivisionError]. *)
Theorem total_drop_raises (c : App.SimulationConfig) (g : rng_state)
  (fuel : nat) :
  App.eth_price_drop c == 1 -> ~ App.start_price c == 0 ->
  (1 <= App.num_users c)%Z ->
  App.run (S fuel) (App.new c) g = Raise ZeroDivisionError.
Proof.
  intros Hdrop Hp Hn.
  destruct (generate_users_ok c g) as (us & g' & E & Hlen & Hall).
  unfold App.run. rewrite E. cbn [mbind result_bind].
  set (s0 := App.mkSim c (App.eth_reserve (App.new c)) us []).
  assert (Hp0 : price (App.eth_reserve (App.shock s0)) == 0).
  { cbn. rewrite Hdrop. ring. }
  cbn [App.cascade]. rewrite zero_price_raises; [reflexivity | exact Hp0 |].
  destruct (lookup_lt_is_Some_2 us 0%nat) as [u Hu]; [lia|].
  intros Hsel.
  assert (Hin : 0%nat ∈ App.select (App.eth_reserve (App.shock s0))
                          (App.users (App.shock s0))).
  { apply elem_of_select. exists u. split; [exact Hu|].
    destruct (Hall 0%nat u Hu) as [g0 Hd].
    pose proof (drawn_hf c (App.eth_reserve (App.new c))
                  (App.eth_reserve (App.new c)) 0 g0 (Qeq_refl _) eq_refl)
      as Hh.
    change (Z.of_nat 0) with 0%Z in Hd.
    destruct (App.draw_position c 0 g0) as [[e t] g1].
    cbn zeta in Hh. rewrite <- Hd in Hh. destruct Hh as [_ Hh].
    destruct Hh as (h & Eh & _).
    { cbn. intros E0. apply Qmult_integral in E0.
      destruct E0 as [E0|E0]; [tauto | discriminate E0]. }
    apply calculate_hf_fin_inv in Eh as [Hdebt _].
    unfold App.liquidatable. rewrite (calculate_hf_fin _ _ Hdebt).
    cbn [hf_ltb]. apply Qltb_lt. rewrite Hp0.
    assert (Ez : eth_collateral u * 0
                 * lt (App.eth_reserve (App.shock s0)) / usdc_debt u == 0)
      by (field; exact Hdebt).
    rewrite Ez. reflexivity. }
  rewrite Hsel in Hin. apply elem_of_nil in Hin. exact Hin.
Qed.

End Crash.

(** The theorem for [total_crash] and the cyclic source. *)
Lemma total_drop_raises_witness :
  App.run 1 (App.new total_crash) 0%Z = Raise ZeroDivisionError.
Proof.
  apply (total_drop_raises (L := cyclic_laws) total_crash 0%Z 0).
  - reflexivity.
  - vm_compute. discriminate.
  - vm_compute. discriminate.
Defined.

(** ** A run without users *)

(** X16.  With a user count of zero or less, [range] is empty: the run
    draws nothing, liquidates nothing and returns the single snapshot
    "Post-Shock", at the shocked price, with no bad debt, no liquidatable
    user and no collateral. *)
Theorem empty_population_run {R : RandomSource} (c : App.SimulationConfig)
  (g : rng_state) (fuel : nat) :
  (App.num_users c <= 0)%Z ->
  exists s,
    App.run (S fuel) (App.new c) g = Ok (s, seed 42) /\
    App.users s = [] /\
    App.history s =
      [mkSnapshot "Post-Shock"
         (App.start_price c * (1 - App.eth_price_drop c)) 0 0%nat 0].
Proof.
  intros Hn. unfold App.run, App.generate_users, range.
  cbn [App.new App.config App.users App.eth_reserve App.history].
  assert (E : Z.to_nat (App.num_users c) = 0%nat) by lia. rewrite E.
  cbn. eexists. split; [reflexivity|]. split; reflexivity.
Qed.

(** The theorem for the configuration [nobody]. *)
Lemma empty_population_run_witness :
  exists s,
    App.run 1 (App.new nobody) 0%Z = Ok (s, seed 42) /\
    App.users s = [] /\
    App.history s =
      [mkSnapshot "Post-Shock"
         (App.start_price nobody * (1 - App.eth_price_drop nobody))
         0 0%nat 0].
Proof.
  apply (empty_population_run (R := cyclic_source) nobody 0%Z 0).
  vm_compute. discriminate.
Defined.

(** ** The batch script: the counter and the final summary *)

(** X17.  The counter [total_liquidated_eth] does not influence the loop,
    and what it gains over the loop is exactly the collateral the
    positions lose: the total printed at the end is the collateral held
    before the cascade minus the collateral held after it. *)
Theorem total_liquidated_is_collateral_lost (fuel : nat) :
  forall n total b b' total',
    Batch.run_liquidation_cascade_total fuel n total b = Ok (b', total') ->
    Batch.run_liquidation_cascade fuel n b = Ok b' /\
    pysum (eth_collateral <$> Batch.users b) + total
      == pysum (eth_collateral <$> Batch.users b') + total'.
Proof.
  induction fuel as [|fuel IH]; intros n total b b' total' H;
    [discriminate|].
  cbn [Batch.run_liquidation_cascade_total Batch.run_liquidation_cascade]
    in H |- *.
  destruct (List.filter _ (seq 0 (length (Batch.users b)))) as [|i sel].
  - injection H as <- <-. split; reflexivity.
  - destruct (Batch.liquidate_all _ _ (Batch.users b) 0)
      as [[us vol]| |] eqn:El; try discriminate.
    cbn [mbind result_bind] in H |- *.
    destruct (fdiv _ _) as [q| |]; try discriminate.
    cbn [mbind result_bind] in H |- *.
    rewrite liquidate_all_agree in El.
    apply liquidate_all_conserves in El.
    destruct (Qltb (q * 0.01) 0.0001).
    + injection H as <- <-. split; [reflexivity|].
      cbn [Batch.users Batch._snapshot_state]. lra.
    + apply IH in H as [H1 H2]. split; [exact H1|].
      cbn [Batch.users Batch._snapshot_state] in H2. lra.
Qed.

(** The theorem for [small_batch]: the script's cascade after its shock,
    with the counter starting at zero. *)
Lemma total_liquidated_is_collateral_lost_witness :
  Batch.run_liquidation_cascade 3 0 (Batch.run_shock_phase small_batch)
    = Ok (fst small_batch_after) /\
  pysum (eth_collateral <$> Batch.users (Batch.run_shock_phase small_batch)) + 0
    == pysum (eth_collateral <$> Batch.users (fst small_batch_after))
       + snd small_batch_after.
Proof.
  apply (total_liquidated_is_collateral_lost 3 0 0
           (Batch.run_shock_phase small_batch)).
  vm_compute. reflexivity.
Defined.

(** X18.  After the shock phase and the cascade of the batch script,
    [run_evaluation] finds a last snapshot (the history is not empty); the
    summary shows the final price of the reserve, the sum of the bad debts
    and the final price times the collateral left, and, when no position
    started with a negative bad debt, the risk status is "CRITICAL"
    exactly when some position carries a positive bad debt. *)
Theorem run_evaluation_summary (fuel : nat)
  (b b' : Batch.StressTestSimulation) :
  Forall (fun u => 0 <= bad_debt u) (Batch.users b) ->
  Batch.run_liquidation_cascade fuel 0 (Batch.run_shock_phase b) = Ok b' ->
  exists p bd coll status,
    Batch.run_evaluation b' = Some (p, bd, coll, status) /\
    p = price (Batch.eth_reserve b') /\
    bd = pysum (bad_debt <$> Batch.users b') /\
    coll == p * pysum (eth_collateral <$> Batch.users b') /\
    (status = "CRITICAL" <->
     Exists (fun u => 0 < bad_debt u) (Batch.users b')) /\
    (status = "CRITICAL" \/ status = "STABLE").
Proof.
  intros H0 H.
  pose proof (cascade_agree fuel 0 (Batch.run_shock_phase b)) as Ha.
  rewrite H in Ha. cbn [fmap result_fmap] in Ha.
  rewrite <- shock_agree in Ha.
  assert (Hb : Forall (fun u => 0 <= bad_debt u) (App.users (as_app b')))
    by (eapply cascade_bad_debt_nonneg; [exact Ha | exact H0]).
  apply cascade_result_is_snapshot in Ha.
  assert (Hs : exists s1 st, as_app b' = App._snapshot_state s1 st).
  { destruct Ha as [->|Ha]; [|exact Ha]. unfold App.shock. eauto. }
  destruct Hs as (s1 & st & Es).
  destruct (snapshot_reports s1 st) as (h & Hl & _ & H1 & H2 & _ & H4).
  rewrite <- Es in Hl, H1, H2, H4.
  cbn [as_app App.history App.users App.eth_reserve] in Hl, H1, H2, H4, Hb.
  unfold Batch.run_evaluation. rewrite Hl. do 4 eexists.
  split; [reflexivity|]. split; [exact H1|]. split; [exact H2|].
  split; [rewrite H1; exact H4|].
  rewrite H2. pose proof (risk_status_of_positions _ Hb) as Hrisk.
  destruct (Qltb 0 (pysum (bad_debt <$> Batch.users b'))) eqn:E.
  - split; [|left; reflexivity].
    split; [intros _; apply Hrisk; reflexivity | reflexivity].
  - split; [|right; reflexivity].
    split; [discriminate|]. intros Hex. apply Hrisk in Hex. discriminate.
Qed.

(** The theorem for [small_batch]. *)
Lemma run_evaluation_summary_witness :
  exists p bd coll status,
    Batch.run_evaluation (fst small_batch_after) = Some (p, bd, coll, status) /\
    p = price (Batch.eth_reserve (fst small_batch_after)) /\
    bd = pysum (bad_debt <$> Batch.users (fst small_batch_after)) /\
    coll == p * pysum (eth_collateral <$> Batch.users (fst small_batch_after)) /\
    (status = "CRITICAL" <->
     Exists (fun u => 0 < bad_debt u) (Batch.users (fst small_batch_after))) /\
    (status = "CRITICAL" \/ status = "STABLE").
Proof.
  apply (run_evaluation_summary 3 small_batch).
  - constructor; [vm_compute; discriminate | constructor].
  - vm_compute. reflexivity.
Defined.

(** ** The health factors after the shock *)

Section PostShock.
Context {R : RandomSource} {L : RandomSourceLaws R}.

(** X19.  For a start price other than zero, the shock multiplies the
    health factor of every generated position by [1 - eth_price_drop]:
    the position drawn with target [t] has health factor
    [t * (1 - eth_price_drop)] at the shocked price, and it is selected in
    round 1 exactly when that is below 1. *)
Theorem post_shock_health (c : App.SimulationConfig) (g : rng_state) :
  ~ App.start_price c == 0 ->
  exists s0 g',
    App.generate_users (App.new c) g = Ok (s0, g') /\
    forall (i : nat) u, App.users s0 !! i = Some u ->
      exists g0 h,
        let '(_, target_hf, _) := App.draw_position c (Z.of_nat i) g0 in
        App.calculate_hf u (App.eth_reserve (App.shock s0)) = Fin h /\
        h == target_hf * (1 - App.eth_price_drop c) /\
        (i ∈ App.select (App.eth_reserve (App.shock s0))
               (App.users (App.shock s0))
         <-> target_hf * (1 - App.eth_price_drop c) < 1).
Proof.
  intros Hp. destruct (generate_users_ok c g) as (us & g' & E & _ & Hall).
  do 2 eexists. split; [exact E|].
  set (s0 := App.mkSim c (App.eth_reserve (App.new c)) us []).
  intros i u Hu. destruct (Hall i u Hu) as [g0 Hd]. exists g0.
  pose proof (draw_position_range c (Z.of_nat i) g0) as Hr.
  destruct (App.draw_position c (Z.of_nat i) g0) as [[e t] g1].
  destruct Hr as (He & Ht & _).
  cbn [App.new App.eth_reserve price lt] in Hd.
  set (d := e * App.start_price c * 0.825 / t) in Hd.
  assert (Ed : d * t == e * App.start_price c * 0.825)
    by (unfold d; field; lra).
  assert (Hd0 : ~ d == 0).
  { clearbody d. intros E0. rewrite E0 in Ed.
    assert (E1 : e * App.start_price c == 0) by lra.
    apply Qmult_integral in E1. destruct E1; [lra | tauto]. }
  assert (Hdebt : ~ usdc_debt u == 0) by (rewrite Hd; exact Hd0).
  assert (Eh : eth_collateral u * price (App.eth_reserve (App.shock s0))
               * lt (App.eth_reserve (App.shock s0)) / usdc_debt u
               == t * (1 - App.eth_price_drop c)).
  { rewrite Hd. cbn. fold d. clearbody d.
    apply (Qmult_inj_r _ _ (d * t)).
    - intros E0. apply Qmult_integral in E0. destruct E0; [tauto | lra].
    - assert (E1 : e * (App.start_price c * (1 - App.eth_price_drop c))
                   * 0.825 / d * (d * t)
                   == e * App.start_price c * 0.825
                      * (1 - App.eth_price_drop c) * t)
        by (field; exact Hd0).
      rewrite E1, <- Ed. ring. }
  eexists. split; [apply calculate_hf_fin, Hdebt|]. split; [exact Eh|].
  rewrite elem_of_select. split.
  - intros (u0 & Hu0 & Hl). cbn [App.users App.shock App._snapshot_state
      App.set_state] in Hu0. rewrite Hu in Hu0. injection Hu0 as <-.
    unfold App.liquidatable in Hl. rewrite (calculate_hf_fin _ _ Hdebt) in Hl.
    cbn [hf_ltb] in Hl. apply Qltb_lt in Hl. rewrite Eh in Hl.
    assert (H10 : 1.0 == 1) by reflexivity. lra.
  - intros Hlt. exists u. split; [exact Hu|].
    unfold App.liquidatable. rewrite (calculate_hf_fin _ _ Hdebt).
    cbn [hf_ltb]. apply Qltb_lt. rewrite Eh.
    assert (H10 : 1.0 == 1) by reflexivity. lra.
Qed.

End PostShock.

(** The theorem for [three_users] and the cyclic source. *)
Lemma post_shock_health_witness :
  exists s0 g',
    App.generate_users (App.new three_users) 0%Z = Ok (s0, g') /\
    forall (i : nat) u, App.users s0 !! i = Some u ->
      exists g0 h,
        let '(_, target_hf, _) :=
          App.draw_position three_users (Z.of_nat i) g0 in
        App.calculate_hf u (App.eth_reserve (App.shock s0)) = Fin h /\
        h == target_hf * (1 - App.eth_price_drop three_users) /\
        (i ∈ App.select (App.eth_reserve (App.shock s0))
               (App.users (App.shock s0))
         <-> target_hf * (1 - App.eth_price_drop three_users) < 1).
Proof.
  apply (post_shock_health (L := cyclic_laws) three_users 0%Z).
  vm_compute. discriminate.
Defined.
